(** * rate-limited-worker: the telemetry service and its event handler

    A shallow embedding of [internal/service/service.go], of the handlers
    of [internal/handlers/handler.go], of [Chain] of
    [internal/middleware/middleware.go] and of the configuration loader
    (package [config]).

    - The [Service] struct becomes a record; its [map[string]*SessionData]
      is a [gmap string SessionData].  Every [*SessionData] is stored under
      exactly one key and never leaves the service, so a pointer is
      identified with its key and a write through the pointer is an
      [alter] at that key.
    - [int64] fields are [Z] with the two's complement wrap-around of
      [atomic.AddInt64] and [++] written out ([wrap64]).
    - [time.Now()] reads a clock that may advance between two reads: the
      world carries the stream of readings and the number of reads so far.
    - OpenTelemetry spans, instruments and [slog] are external: calls to
      them are appended to the world's output, in program order.
    - [float64] is IEEE 754 binary64, taken from [SpecFloat]. *)

From Stdlib Require Import ZArith Lia SpecFloat Ascii.
From stdpp Require Import gmap strings list fin_maps.

Open Scope Z_scope.

(** ** Machine integers, durations and instants *)

Definition max_int64 : Z := 9223372036854775807.
Definition min_int64 : Z := -9223372036854775808.

(** Two's complement reduction of an unbounded integer to [int64]. *)
Definition wrap64 (z : Z) : Z := (z + 2 ^ 63) mod 2 ^ 64 - 2 ^ 63.

Definition in_int64 (z : Z) : Prop := min_int64 <= z <= max_int64.

(** [time.Duration] is an [int64] count of nanoseconds. *)
Definition Duration := Z.
Definition Nanosecond : Duration := 1.
Definition Second : Duration := 1000000000.
Definition Minute : Duration := 60 * Second.
Definition maxDuration : Duration := max_int64.
Definition minDuration : Duration := min_int64.

(** An instant is the clock reading in nanoseconds; the zero
    [time.Time] is [0]. *)
Definition Time := Z.

Definition IsZero (t : Time) : bool := bool_decide (t = 0).

(** [subMono(t, u)] (package [time]), the difference of two monotonic
    readings, which are [int64]: the subtraction wraps around and the two
    tests detect that it did. *)
Definition subMono (t u : Z) : Duration :=
  let d := wrap64 (t - u) in
  if bool_decide (d < 0 ∧ t > u) then maxDuration
  else if bool_decide (d > 0 ∧ t < u) then minDuration
  else d.

(** [t.Sub(u)] (package [time]): the duration [t - u]; when it exceeds the
    largest (or the smallest) value a [Duration] stores, the largest (or
    the smallest) duration.  An instant is an unbounded integer here, so
    the test is on the difference itself; on [int64] readings this is
    [subMono] ([Sub_subMono]). *)
Definition Sub (t u : Time) : Duration :=
  let d := t - u in
  if bool_decide (d > maxDuration) then maxDuration
  else if bool_decide (d < minDuration) then minDuration
  else d.

(** ** float64 *)

Definition float64 := spec_float.
Definition f64_prec : Z := 53.
Definition f64_emax : Z := 1024.

(** The conversion [float64(n)] of an integer, rounded to nearest even. *)
Definition float64_of_Z (n : Z) : float64 :=
  binary_normalize f64_prec f64_emax n 0 false.

Definition f64_add : float64 → float64 → float64 := SFadd f64_prec f64_emax.
Definition f64_div : float64 → float64 → float64 := SFdiv f64_prec f64_emax.
Definition f64_eqb : float64 → float64 → bool := SFeqb.
Definition f64_zero : float64 := S754_zero false.

(** Go's truncated integer division and remainder on [int64]. *)
Definition go_div (a b : Z) : Z := wrap64 (Z.quot a b).
Definition go_rem (a b : Z) : Z := Z.rem a b.

(** [d.Minutes()] (package [time]):
    [min := d / Minute; nsec := d % Minute;
     return float64(min) + float64(nsec)/(60*1e9)]. *)
Definition Minutes (d : Duration) : float64 :=
  let min := go_div d Minute in
  let nsec := go_rem d Minute in
  f64_add (float64_of_Z min)
          (f64_div (float64_of_Z nsec) (float64_of_Z 60000000000)).

(** ** Values of type [interface{}] *)

#[warnings="-register-all"]
Inductive Any : Type :=
  | VNil
  | VBool (b : bool)
  | VNumber (f : float64)
  | VString (s : string)
  | VInt (z : Z)
  | VTime (t : Time)
  | VArray (xs : list Any)
  | VObject (kvs : list (string * Any)).

(** The type assertion [value.(string)]. *)
Definition as_string (v : Any) : option string :=
  match v with
  | VString s => Some s
  | _ => None
  end.

(** ** The data model of [service.go] *)

Record TrackingEvent : Type := mkEvent {
  EventType : string;
  Timestamp : Time;
  CursorX : Z;
  CursorY : Z;
  ElementID : string;
  ElementType : string;
  PageURL : string;
  UserAgent : string;
  SessionID : string;
  ViewportX : Z;
  ViewportY : Z;
  ScrollX : Z;
  ScrollY : Z;
  ElementText : string;
  Custom : gmap string Any
}.

Record SessionData : Type := mkSession {
  ID : string;
  StartTime : Time;
  LastActive : Time;
  ClickCount : Z;
  Events : list TrackingEvent
}.

Record HealthMetrics : Type := mkHealth {
  Uptime : string;
  TotalClicks : Z;
  PageViews : Z;
  ActiveUsers : Z;
  TotalSessions : Z
}.

Record Service : Type := mkService {
  startTime : Time;
  clickCounter : Z;
  pageViews : Z;
  sessionCounter : Z;
  sessions : gmap string SessionData
}.

(** ** Calls into the telemetry and logging collaborators *)

Inductive Instrument : Type :=
  | clickRate
  | cursorPositions
  | requestDuration
  | activeUsers
  | httpRequests.

Inductive Level : Type := LevelInfo | LevelWarn | LevelError.

Inductive Code : Type := CodeError | CodeOk.

Definition KeyValue : Type := string * Any.

Inductive Effect : Type :=
  | SpanStart (span : string)
  | SpanSetAttributes (span : string) (kvs : list KeyValue)
  | SpanSetStatus (span : string) (c : Code) (description : string)
  | SpanRecordError (span : string) (err : string)
  | SpanEnd (span : string)
  | CounterAdd (i : Instrument) (incr : Z) (attrs : list KeyValue)
  | HistogramRecord (i : Instrument) (value : Z) (attrs : list KeyValue)
  | Slog (l : Level) (msg : string) (args : list KeyValue).

(** A metric sample is a call to [Add] or [Record] of an instrument. *)
Definition is_metric (e : Effect) : bool :=
  match e with
  | CounterAdd _ _ _ | HistogramRecord _ _ _ => true
  | _ => false
  end.

(** ** The world a call runs in *)

Record World : Type := mkWorld {
  svc : Service;
  clock : nat → Time;
  reads : nat;
  output : list Effect
}.

Definition M (A : Type) : Type := World → A * World.

Definition ret {A} (a : A) : M A := λ w, (a, w).

Definition bind {A B} (m : M A) (k : A → M B) : M B :=
  λ w, let '(a, w') := m w in k a w'.

Notation "x <- m ;; k" := (bind m (λ x, k))
  (at level 100, m at next level, right associativity).
Notation "m ;;; k" := (bind m (λ _, k))
  (at level 100, right associativity).

Definition exec {A} (m : M A) (w : World) : World := snd (m w).
Definition eval {A} (m : M A) (w : World) : A := fst (m w).

(** [time.Now()] *)
Definition Now : M Time :=
  λ w, (clock w (reads w),
        mkWorld (svc w) (clock w) (S (reads w)) (output w)).

Definition emit (e : Effect) : M unit :=
  λ w, (tt, mkWorld (svc w) (clock w) (reads w) (output w ++ [e])).

Definition get : M Service := λ w, (svc w, w).

Definition modify (f : Service → Service) : M unit :=
  λ w, (tt, mkWorld (f (svc w)) (clock w) (reads w) (output w)).

(** Field updates of [Service]. *)
Definition set_clickCounter (v : Z) (s : Service) : Service :=
  mkService (startTime s) v (pageViews s) (sessionCounter s) (sessions s).
Definition set_pageViews (v : Z) (s : Service) : Service :=
  mkService (startTime s) (clickCounter s) v (sessionCounter s) (sessions s).
Definition set_sessionCounter (v : Z) (s : Service) : Service :=
  mkService (startTime s) (clickCounter s) (pageViews s) v (sessions s).
Definition set_sessions (m : gmap string SessionData) (s : Service) : Service :=
  mkService (startTime s) (clickCounter s) (pageViews s) (sessionCounter s) m.

(** Field updates of [SessionData]. *)
Definition set_LastActive (t : Time) (d : SessionData) : SessionData :=
  mkSession (ID d) (StartTime d) t (ClickCount d) (Events d).
Definition set_Events (l : list TrackingEvent) (d : SessionData) : SessionData :=
  mkSession (ID d) (StartTime d) (LastActive d) (ClickCount d) l.
Definition set_ClickCount (n : Z) (d : SessionData) : SessionData :=
  mkSession (ID d) (StartTime d) (LastActive d) n (Events d).

(** A write through the pointer stored under [sid]. *)
Definition write_session (sid : string) (f : SessionData → SessionData) : M unit :=
  modify (λ s, set_sessions (alter f sid (sessions s)) s).

(** ** [service.go] *)

(** [atomic.AddInt64(&x, 1)] and [x++] on an [int64]. *)
Definition incr64 (x : Z) : Z := wrap64 (x + 1).

Definition New : M Service :=
  t <- Now ;;
  ret (mkService t 0 0 0 ∅).

(** The branch [if !exists] of [updateSession]: the two fields are
    filled by two calls of [time.Now()]. *)
Definition createSession (event : TrackingEvent) : M unit :=
  t_start <- Now ;;
  t_active <- Now ;;
  let session := mkSession (SessionID event) t_start t_active 0 [] in
  modify (λ s, set_sessions (<[SessionID event := session]> (sessions s)) s) ;;;
  modify (λ s, set_sessionCounter (incr64 (sessionCounter s)) s).

Definition updateSession (event : TrackingEvent) : M unit :=
  s <- get ;;
  (match sessions s !! SessionID event with
   | Some _ => ret tt
   | None => createSession event
   end) ;;;
  (* Update session *)
  t <- Now ;;
  write_session (SessionID event) (set_LastActive t) ;;;
  write_session (SessionID event) (λ d, set_Events (Events d ++ [event]) d) ;;;
  if decide (EventType event = "click")
  then write_session (SessionID event) (λ d, set_ClickCount (incr64 (ClickCount d)) d)
  else ret tt.

Definition cursor_attrs (coordinate event_type : string) : list KeyValue :=
  [("coordinate", VString coordinate); ("event_type", VString event_type)].

Definition recordClick (event : TrackingEvent) : M unit :=
  (* Increment global click counter *)
  modify (λ s, set_clickCounter (incr64 (clickCounter s)) s) ;;;
  (* Record click rate metric *)
  emit (CounterAdd clickRate 1
          [("element_id", VString (ElementID event));
           ("element_type", VString (ElementType event));
           ("page_url", VString (PageURL event))]) ;;;
  (* Record cursor position at click *)
  emit (HistogramRecord cursorPositions (CursorX event) (cursor_attrs "x" "click")) ;;;
  emit (HistogramRecord cursorPositions (CursorY event) (cursor_attrs "y" "click")) ;;;
  (* Create custom span for click analytics *)
  emit (SpanStart "click_analytics") ;;;
  emit (SpanSetAttributes "click_analytics"
          [("click.element_id", VString (ElementID event));
           ("click.element_type", VString (ElementType event));
           ("click.element_text", VString (ElementText event));
           ("click.position_x", VInt (CursorX event));
           ("click.position_y", VInt (CursorY event));
           ("click.viewport_x", VInt (ViewportX event));
           ("click.viewport_y", VInt (ViewportY event))]) ;;;
  emit (SpanEnd "click_analytics").

Definition recordCursorPosition (event : TrackingEvent) : M unit :=
  emit (HistogramRecord cursorPositions (CursorX event) (cursor_attrs "x" "mousemove")) ;;;
  emit (HistogramRecord cursorPositions (CursorY event) (cursor_attrs "y" "mousemove")).

Definition recordScrollEvent (event : TrackingEvent) : M unit :=
  emit (HistogramRecord cursorPositions (ScrollX event) (cursor_attrs "scroll_x" "scroll")) ;;;
  emit (HistogramRecord cursorPositions (ScrollY event) (cursor_attrs "scroll_y" "scroll")).

(** The body of [for key, value := range event.Custom] for one entry. *)
Definition custom_attribute (kv : string * Any) : M unit :=
  match as_string kv.2 with
  | Some str => emit (SpanSetAttributes "custom_event" [("custom." +:+ kv.1, VString str)])
  | None => ret tt
  end.

Fixpoint for_range {A} (body : A → M unit) (l : list A) : M unit :=
  match l with
  | [] => ret tt
  | x :: l' => body x ;;; for_range body l'
  end.

(** Go leaves the order of a [range] over a map unspecified and varies it
    from one loop to the next.  The loop below visits the entries in the
    order of [map_to_list], which stands for any of these orders: what is
    stated of the loop is stated for every order of the visit, or up to
    the order of the attributes. *)
Definition recordCustomEvent (event : TrackingEvent) : M unit :=
  (* Create custom span for analytics *)
  emit (SpanStart "custom_event") ;;;
  emit (SpanSetAttributes "custom_event"
          [("custom.element_id", VString (ElementID event));
           ("custom.session_id", VString (SessionID event))]) ;;;
  (* Add custom attributes if present *)
  for_range custom_attribute (map_to_list (Custom event)) ;;;
  emit (SpanEnd "custom_event").

(** A Go [error]; [None] is [nil]. *)
Definition error : Type := option string.

Definition ProcessTrackingEvent (event : TrackingEvent) : M error :=
  emit (SpanStart "process_tracking_event") ;;;
  (* Add span attributes *)
  emit (SpanSetAttributes "process_tracking_event"
          [("event.type", VString (EventType event));
           ("session.id", VString (SessionID event));
           ("cursor.x", VInt (CursorX event));
           ("cursor.y", VInt (CursorY event))]) ;;;
  (* Update session data *)
  updateSession event ;;;
  (* Record different metrics based on event type *)
  (if decide (EventType event = "click") then recordClick event
   else if decide (EventType event = "mousemove") then recordCursorPosition event
   else if decide (EventType event = "scroll") then recordScrollEvent event
   else if decide (EventType event = "custom") then recordCustomEvent event
   else emit (Slog LevelWarn "Unknown event type" [("type", VString (EventType event))])) ;;;
  (* Log event for structured logging *)
  emit (Slog LevelInfo "Event processed"
          [("event_type", VString (EventType event));
           ("session_id", VString (SessionID event));
           ("element_id", VString (ElementID event));
           ("timestamp", VTime (Timestamp event))]) ;;;
  (* defer span.End() *)
  emit (SpanEnd "process_tracking_event") ;;;
  ret None.

Definition TrackPageView : M unit :=
  modify (λ s, set_pageViews (incr64 (pageViews s)) s) ;;;
  emit (SpanStart "page_view") ;;;
  s <- get ;;
  emit (SpanSetAttributes "page_view"
          [("page_views.total", VInt (pageViews s));
           ("page.type", VString "homepage")]) ;;;
  emit (SpanEnd "page_view") ;;;
  s <- get ;;
  emit (Slog LevelInfo "Page view recorded" [("total_views", VInt (pageViews s))]).

(** [time.Since(t)] is [time.Now().Sub(t)]. *)
Definition Since (t : Time) : M Duration :=
  n <- Now ;;
  ret (Sub n t).

(** [duration_String] stands for [Duration.String] of package [time]. *)
Definition GetHealthMetrics (duration_String : Duration → string) : M HealthMetrics :=
  s <- get ;;
  let activeUsers := Z.of_nat (size (sessions s)) in
  uptime <- Since (startTime s) ;;
  s <- get ;;
  ret (mkHealth (duration_String uptime) (clickCounter s) (pageViews s)
                activeUsers (sessionCounter s)).

Definition GetClickRate (duration : Duration) : M float64 :=
  s <- get ;;
  let clicks := clickCounter s in
  let minutes := Minutes duration in
  if f64_eqb minutes f64_zero then ret f64_zero
  else ret (f64_div (float64_of_Z clicks) minutes).

(** The body of [for sessionID, session := range s.sessions] for one
    entry: the test reads the entry as it was reached by the loop. *)
Definition cleanup_entry (now : Time) (maxAge : Duration)
    (m : gmap string SessionData) (kv : string * SessionData) : gmap string SessionData :=
  if bool_decide (Sub now (LastActive kv.2) > maxAge) then delete kv.1 m else m.

Definition CleanupOldSessions (maxAge : Duration) : M unit :=
  now <- Now ;;
  modify (λ s, set_sessions
                 (foldl (cleanup_entry now maxAge) (sessions s)
                        (map_to_list (sessions s))) s).

(** ** [handler.go]: the [TrackEvent] handler *)

Definition MethodPost : string := "POST".
Definition StatusBadRequest : Z := 400.
Definition StatusMethodNotAllowed : Z := 405.
Definition StatusInternalServerError : Z := 500.

(** What the handler reads from [*http.Request].  [Decoded] is the
    outcome of [json.NewDecoder(r.Body).Decode(&event)]; [EncodeErr] is
    the outcome of writing the JSON response to the connection. *)
Record Request : Type := mkRequest {
  Method : string;
  Decoded : string + TrackingEvent;
  RequestUserAgent : string;
  Referer : string;
  EncodeErr : error
}.

(** What the handler writes to [http.ResponseWriter]. *)
Inductive Response : Type :=
  | HttpError (msg : string) (code : Z)
  | HttpJSON (response : list (string * Any)).

Definition set_Timestamp (t : Time) (e : TrackingEvent) : TrackingEvent :=
  mkEvent (EventType e) t (CursorX e) (CursorY e) (ElementID e) (ElementType e)
          (PageURL e) (UserAgent e) (SessionID e) (ViewportX e) (ViewportY e)
          (ScrollX e) (ScrollY e) (ElementText e) (Custom e).
Definition set_UserAgent (s : string) (e : TrackingEvent) : TrackingEvent :=
  mkEvent (EventType e) (Timestamp e) (CursorX e) (CursorY e) (ElementID e) (ElementType e)
          (PageURL e) s (SessionID e) (ViewportX e) (ViewportY e)
          (ScrollX e) (ScrollY e) (ElementText e) (Custom e).
Definition set_PageURL (s : string) (e : TrackingEvent) : TrackingEvent :=
  mkEvent (EventType e) (Timestamp e) (CursorX e) (CursorY e) (ElementID e) (ElementType e)
          s (UserAgent e) (SessionID e) (ViewportX e) (ViewportY e)
          (ScrollX e) (ScrollY e) (ElementText e) (Custom e).

(** Every [return] of the handler runs the deferred [span.End()]. *)
Definition finish (r : Response) : M Response :=
  emit (SpanEnd "track_event_handler") ;;;
  ret r.

Definition TrackEvent (r : Request) : M Response :=
  emit (SpanStart "track_event_handler") ;;;
  (* Only accept POST requests *)
  if decide (Method r ≠ MethodPost) then
    emit (SpanSetStatus "track_event_handler" CodeError "method not allowed") ;;;
    finish (HttpError "Method not allowed" StatusMethodNotAllowed)
  else
  (* Parse JSON request *)
  match Decoded r with
  | inl err =>
      emit (SpanRecordError "track_event_handler" err) ;;;
      emit (SpanSetStatus "track_event_handler" CodeError "invalid JSON") ;;;
      emit (Slog LevelError "Failed to decode tracking event" [("error", VString err)]) ;;;
      finish (HttpError "Invalid JSON" StatusBadRequest)
  | inr event =>
      (* Validate event *)
      if decide (EventType event = "") then
        emit (SpanSetStatus "track_event_handler" CodeError "missing event type") ;;;
        finish (HttpError "Event type is required" StatusBadRequest)
      else
      (* Set timestamp if not provided *)
      event <- (if IsZero (Timestamp event)
                then t <- Now ;; ret (set_Timestamp t event)
                else ret event) ;;
      (* Add request metadata *)
      let event := set_UserAgent (RequestUserAgent r) event in
      let event := if decide (PageURL event = "")
                   then set_PageURL (Referer r) event else event in
      (* Process event through service layer *)
      perr <- ProcessTrackingEvent event ;;
      match perr with
      | Some err =>
          emit (SpanRecordError "track_event_handler" err) ;;;
          emit (SpanSetStatus "track_event_handler" CodeError "event processing failed") ;;;
          emit (Slog LevelError "Failed to process tracking event"
                  [("error", VString err); ("event_type", VString (EventType event))]) ;;;
          finish (HttpError "Failed to process event" StatusInternalServerError)
      | None =>
          (* Log event details *)
          emit (Slog LevelInfo "Tracking event processed"
                  [("event_type", VString (EventType event));
                   ("cursor_x", VInt (CursorX event));
                   ("cursor_y", VInt (CursorY event));
                   ("element_id", VString (ElementID event));
                   ("session_id", VString (SessionID event))]) ;;;
          (* Add span attributes *)
          emit (SpanSetAttributes "track_event_handler"
                  [("event.type", VString (EventType event));
                   ("cursor.x", VInt (CursorX event));
                   ("cursor.y", VInt (CursorY event));
                   ("element.id", VString (ElementID event));
                   ("element.type", VString (ElementType event));
                   ("session.id", VString (SessionID event))]) ;;;
          (* Return success response *)
          now <- Now ;;
          let response :=
            [("status", VString "success");
             ("timestamp", VTime now);
             ("event_id", VString (SessionID event +:+ "_" +:+ EventType event))] in
          (match EncodeErr r with
           | Some err =>
               emit (SpanRecordError "track_event_handler" err) ;;;
               emit (Slog LevelError "Failed to encode response" [("error", VString err)])
           | None => ret tt
           end) ;;;
          emit (SpanSetStatus "track_event_handler" CodeOk "event tracked successfully") ;;;
          finish (HttpJSON response)
      end
  end.

(** ** Sample worlds and events *)

Definition ticking : nat → Time := λ n, Z.of_nat n.

Definition world0 : World :=
  mkWorld (mkService 0 0 0 0 ∅) ticking 1 [].

Definition event0 (tp sid : string) : TrackingEvent :=
  mkEvent tp 0 10 20 "zone-1" "div" "/" "" sid 800 600 0 0 "" ∅.

(** ** Auxiliary definitions used in the statements *)

(** The session that [updateSession] leaves under the event's id. *)
Definition folded (event : TrackingEvent) (t : Time) (d : SessionData) : SessionData :=
  mkSession (ID d) (StartTime d) t
            (if decide (EventType event = "click")
             then incr64 (ClickCount d) else ClickCount d)
            (Events d ++ [event]).

(** What one entry of the custom map adds to the span. *)
Definition custom_effects (kv : string * Any) : list Effect :=
  match as_string kv.2 with
  | Some str => [SpanSetAttributes "custom_event" [("custom." +:+ kv.1, VString str)]]
  | None => []
  end.

(** The effects of the [switch] of [ProcessTrackingEvent]. *)
Definition dispatch (event : TrackingEvent) : M unit :=
  if decide (EventType event = "click") then recordClick event
  else if decide (EventType event = "mousemove") then recordCursorPosition event
  else if decide (EventType event = "scroll") then recordScrollEvent event
  else if decide (EventType event = "custom") then recordCustomEvent event
  else emit (Slog LevelWarn "Unknown event type" [("type", VString (EventType event))]).

(** Submitting a sequence of events, one call after the other. *)
Definition submit_all (es : list TrackingEvent) (w : World) : World :=
  foldl (λ w e, exec (ProcessTrackingEvent e) w) w es.

Definition is_click (e : TrackingEvent) : bool :=
  bool_decide (EventType e = "click").

Definition count_clicks (es : list TrackingEvent) : Z :=
  Z.of_nat (length (filter (λ e, is_click e = true) es)).

(** A session is stale for [CleanupOldSessions] at the instant [now]. *)
Definition stale (now : Time) (maxAge : Duration) (d : SessionData) : Prop :=
  Sub now (LastActive d) > maxAge.

#[global] Instance stale_dec (now : Time) (maxAge : Duration) (d : SessionData) :
  Decision (stale now maxAge d).
Proof. unfold stale. apply _. Defined.

(** The operations of the service and of its handler. *)
Inductive Op : Type :=
  | OpTrackEvent (r : Request)
  | OpProcessTrackingEvent (event : TrackingEvent)
  | OpTrackPageView
  | OpCleanupOldSessions (maxAge : Duration)
  | OpGetHealthMetrics (duration_String : Duration → string)
  | OpGetClickRate (duration : Duration).

Definition step (op : Op) (w : World) : World :=
  match op with
  | OpTrackEvent r => exec (TrackEvent r) w
  | OpProcessTrackingEvent event => exec (ProcessTrackingEvent event) w
  | OpTrackPageView => exec TrackPageView w
  | OpCleanupOldSessions maxAge => exec (CleanupOldSessions maxAge) w
  | OpGetHealthMetrics duration_String => exec (GetHealthMetrics duration_String) w
  | OpGetClickRate duration => exec (GetClickRate duration) w
  end.

(** The attributes set on the span called [span], in the order of the calls. *)
Definition span_attributes (span : string) (out : list Effect) : list KeyValue :=
  concat ((λ e, match e with
                | SpanSetAttributes sp kvs => if decide (sp = span) then kvs else []
                | _ => []
                end) <$> out).

(** The event type is none of those the [switch] knows. *)
Definition unrecognized (event : TrackingEvent) : Prop :=
  EventType event ≠ "click" ∧ EventType event ≠ "mousemove" ∧
  EventType event ≠ "scroll" ∧ EventType event ≠ "custom".

Definition request0 (tp sid : string) : Request :=
  mkRequest "POST" (inr (event0 tp sid)) "Mozilla/5.0" "http://localhost:8080/" None.

(** A clock that advances by one hour with every reading. *)
Definition hourly : nat → Time := λ n, Z.of_nat n * (3600 * Second).

Definition world_hourly : World :=
  mkWorld (mkService 0 0 0 0 ∅) hourly 1 [].

(** No counter of [s'] is below the same counter of [s]. *)
Definition counters_le (s s' : Service) : Prop :=
  clickCounter s <= clickCounter s' ∧
  pageViews s <= pageViews s' ∧
  sessionCounter s <= sessionCounter s'.

(** No counter has reached the largest [int64]. *)
Definition counters_below_max (s : Service) : Prop :=
  clickCounter s < max_int64 ∧
  pageViews s < max_int64 ∧
  sessionCounter s < max_int64.

(** The attribute a string-valued entry of the custom map becomes. *)
Definition custom_string_attribute (kv : string * Any) : option KeyValue :=
  match kv.2 with
  | VString str => Some ("custom." +:+ kv.1, VString str)
  | _ => None
  end.

Definition event_custom (m : gmap string Any) : TrackingEvent :=
  mkEvent "custom" 0 0 0 "generate-event" "button" "/" "" "s1" 800 600 0 0 "" m.

(** ** Classes of [float64] values used in the statements *)

(** The smallest exponent of a binary64 mantissa. *)
Definition f64_emin : Z := emin f64_prec f64_emax.

(** Not a zero; a finite value is positive with an exponent in range. *)
Definition above_zero (f : float64) : Prop :=
  match f with
  | S754_zero _ => False
  | S754_finite s _ e => s = false ∧ f64_emin <= e
  | _ => True
  end.

(** A finite positive number with a full mantissa and a small exponent. *)
Definition normal53 (f : float64) : Prop :=
  ∃ m e, f = S754_finite false m e ∧ digits2_pos m = 53%positive ∧ -52 <= e <= 0.

(** ** Further definitions used in the statements *)

(** What a call appends to the output of the world. *)
Definition emitted {A} (m : M A) (w : World) : list Effect :=
  drop (length (output w)) (output (exec m w)).

(** The metric samples among the effects. *)
Definition metrics (out : list Effect) : list Effect :=
  filter (λ e, is_metric e = true) out.

(** The event [TrackEvent] hands to the service: the timestamp is filled
    from the clock when it is zero, the user agent is the one of the
    request, and an empty page URL is replaced by the referer. *)
Definition prepare (r : Request) (t : Time) (event : TrackingEvent) : TrackingEvent :=
  let event := if IsZero (Timestamp event) then set_Timestamp t event else event in
  let event := set_UserAgent (RequestUserAgent r) event in
  if decide (PageURL event = "") then set_PageURL (Referer r) event else event.

(** The event of a request that passes the checks of [TrackEvent]. *)
Definition accepted (r : Request) : option TrackingEvent :=
  if decide (Method r ≠ MethodPost) then None
  else match Decoded r with
       | inl _ => None
       | inr event => if decide (EventType event = "") then None else Some event
       end.

(** The world with another number of clock readings and another output. *)
Definition at_reads (n : nat) (out : list Effect) (w : World) : World :=
  mkWorld (svc w) (clock w) n out.

(** Running operations one after the other. *)
Definition run_ops (ops : list Op) (w : World) : World :=
  foldl (λ w op, step op w) w ops.

(** [svc := service.New()] of [main]: the world gets a new service. *)
Definition boot : M unit :=
  s <- New ;;
  modify (λ _, s).

(** The event an operation hands to [ProcessTrackingEvent], as submitted. *)
Definition op_event (op : Op) : option TrackingEvent :=
  match op with
  | OpTrackEvent r => accepted r
  | OpProcessTrackingEvent event => Some event
  | _ => None
  end.

Definition op_is_click (op : Op) : bool :=
  match op_event op with
  | Some event => is_click event
  | None => false
  end.

Definition op_is_page_view (op : Op) : bool :=
  match op with
  | OpTrackPageView => true
  | _ => false
  end.

Definition op_is_cleanup (op : Op) : bool :=
  match op with
  | OpCleanupOldSessions _ => true
  | _ => false
  end.

Definition clicks_in (ops : list Op) : Z :=
  Z.of_nat (length (filter (λ op, op_is_click op = true) ops)).

Definition page_views_in (ops : list Op) : Z :=
  Z.of_nat (length (filter (λ op, op_is_page_view op = true) ops)).

(** The session ids of the events the operations process. *)
Definition session_ids_in (ops : list Op) : gset string :=
  list_to_set (omap (λ op, SessionID <$> op_event op) ops).

(** A stored session agrees with its key and with its own events. *)
Definition session_wf (sid : string) (d : SessionData) : Prop :=
  ID d = sid ∧
  Events d ≠ [] ∧
  Forall (λ e, SessionID e = sid) (Events d) ∧
  ClickCount d = wrap64 (count_clicks (Events d)).

Definition sessions_wf (s : Service) : Prop :=
  ∀ sid d, sessions s !! sid = Some d → session_wf sid d.

(** The clock never goes back. *)
Definition clock_monotone (c : nat → Time) : Prop :=
  ∀ i j : nat, (i ≤ j)%nat → c i <= c j.

(** Every stored session started before it was last active, and was last
    active no later than the next reading of the clock. *)
Definition times_ok (w : World) : Prop :=
  ∀ sid d, sessions (svc w) !! sid = Some d →
    StartTime d <= LastActive d ∧ LastActive d <= clock w (reads w).

(** ** [handler.go]: the [HomePage] and [HealthCheck] handlers *)

Definition MethodGet : string := "GET".
Definition StatusNotFound : Z := 404.

(** What [HomePage] reads from the request, with the outcomes of parsing
    the page template and of executing it into the connection. *)
Record PageRequest : Type := mkPageRequest {
  PageMethod : string;
  PagePath : string;
  ParseErr : error;
  ExecuteErr : error
}.

(** What [HomePage] writes: an error by [http.Error], the reply of
    [http.NotFound], or the executed template. *)
Inductive PageResponse : Type :=
  | PageError (msg : string) (code : Z)
  | PageNotFound
  | PageHTML (tmpl : string).

Definition finish_home (r : PageResponse) : M PageResponse :=
  emit (SpanEnd "homepage_handler") ;;;
  ret r.

(** [tmpl] is the text of the page, a constant of the handler. *)
Definition HomePage (tmpl : string) (r : PageRequest) : M PageResponse :=
  emit (SpanStart "homepage_handler") ;;;
  (* Only serve GET requests to root path *)
  if decide (PageMethod r ≠ MethodGet) then
    emit (SpanSetStatus "homepage_handler" CodeError "method not allowed") ;;;
    finish_home (PageError "Method not allowed" StatusMethodNotAllowed)
  else if decide (PagePath r ≠ "/") then
    emit (SpanSetStatus "homepage_handler" CodeError "page not found") ;;;
    finish_home PageNotFound
  else
    (* Track page view *)
    TrackPageView ;;;
    (* Parse template *)
    match ParseErr r with
    | Some err =>
        emit (SpanRecordError "homepage_handler" err) ;;;
        emit (SpanSetStatus "homepage_handler" CodeError "template parsing failed") ;;;
        emit (Slog LevelError "Failed to parse template" [("error", VString err)]) ;;;
        finish_home (PageError "Internal server error" StatusInternalServerError)
    | None =>
        (* Execute template *)
        match ExecuteErr r with
        | Some err =>
            emit (SpanRecordError "homepage_handler" err) ;;;
            emit (SpanSetStatus "homepage_handler" CodeError "template execution failed") ;;;
            emit (Slog LevelError "Failed to execute template" [("error", VString err)]) ;;;
            finish_home (PageError "Internal server error" StatusInternalServerError)
        | None =>
            emit (SpanSetAttributes "homepage_handler"
                    [("http.route", VString "/");
                     ("response.type", VString "html")]) ;;;
            emit (SpanSetStatus "homepage_handler" CodeOk "homepage rendered successfully") ;;;
            finish_home (PageHTML tmpl)
        end
    end.

Definition finish_health (r : Response) : M Response :=
  emit (SpanEnd "health_check_handler") ;;;
  ret r.

(** [HealthCheck] reads the method of the request and the outcome of
    writing the response ([EncodeErr]). *)
Definition HealthCheck (duration_String : Duration → string) (r : Request) : M Response :=
  emit (SpanStart "health_check_handler") ;;;
  if decide (Method r ≠ MethodGet) then
    emit (SpanSetStatus "health_check_handler" CodeError "method not allowed") ;;;
    finish_health (HttpError "Method not allowed" StatusMethodNotAllowed)
  else
    (* Get health metrics from service *)
    healthData <- GetHealthMetrics duration_String ;;
    now <- Now ;;
    let response :=
      [("status", VString "healthy");
       ("timestamp", VTime now);
       ("version", VString "v1.0.0");
       ("uptime", VString (Uptime healthData))] in
    match EncodeErr r with
    | Some err =>
        emit (SpanRecordError "health_check_handler" err) ;;;
        emit (SpanSetStatus "health_check_handler" CodeError "encoding failed") ;;;
        emit (Slog LevelError "Failed to encode health response" [("error", VString err)]) ;;;
        finish_health (HttpError "Internal server error" StatusInternalServerError)
    | None =>
        emit (SpanSetStatus "health_check_handler" CodeOk "health check completed") ;;;
        finish_health (HttpJSON response)
    end.

(** ** [middleware.go]: [Chain] *)

(** [type Middleware func(http.Handler) http.Handler], for any type of
    handlers. *)
Definition Middleware (Handler : Type) : Type := Handler → Handler.

(** The loop [for i := len(middlewares) - 1; i >= 0; i-- { h = middlewares[i](h) }]:
    [n] is the number of indices still to visit, so the next index is
    [n - 1]. *)
Fixpoint Chain_loop {Handler : Type} (middlewares : list (Middleware Handler))
    (n : nat) (h : Handler) : Handler :=
  match n with
  | O => h
  | S i =>
      match middlewares !! i with
      | Some m => Chain_loop middlewares i (m h)
      | None => h
      end
  end.

Definition Chain {Handler : Type} (h : Handler)
    (middlewares : list (Middleware Handler)) : Handler :=
  Chain_loop middlewares (length middlewares) h.

(** ** [config.go] *)

Record Config : Type := mkConfig {
  Port : Z;
  LogLevel : string;
  OTELEndpoint : string;
  Environment : string
}.

(** The environment of the process; [os.Getenv] gives the empty string
    for a variable that is not set. *)
Definition Getenv (env : gmap string string) (key : string) : string :=
  default "" (env !! key).

(** The value of a decimal digit, [None] for any other byte. *)
Definition digit_value (c : ascii) : option Z :=
  let n := Z.of_N (N_of_ascii c) in
  if (48 <=? n) && (n <=? 57) then Some (n - 48) else None.

Fixpoint parse_digits (acc : Z) (s : string) : option Z :=
  match s with
  | EmptyString => Some acc
  | String c s' =>
      match digit_value c with
      | Some d => parse_digits (acc * 10 + d) s'
      | None => None
      end
  end.

(** [strconv.Atoi]: an optional sign and at least one decimal digit; the
    value has to fit the 64 bits of an [int].  [None] stands for the
    syntax and range errors. *)
Definition Atoi (s : string) : option Z :=
  match s with
  | EmptyString => None
  | String c rest =>
      let neg := bool_decide (c = "-"%char) in
      let digits := if bool_decide (c = "-"%char ∨ c = "+"%char) then rest else s in
      match digits with
      | EmptyString => None
      | _ =>
          match parse_digits 0 digits with
          | Some n =>
              let v := if neg then - n else n in
              if (min_int64 <=? v) && (v <=? max_int64) then Some v else None
          | None => None
          end
      end
  end.

(** The digit of a value below ten. *)
Definition digit_char (d : Z) : ascii := ascii_of_N (Z.to_N (48 + d)).

(** The decimal digits of [n >= 0] in front of [acc]; [fuel] bounds the
    number of digits. *)
Fixpoint format_digits (fuel : nat) (n : Z) (acc : string) : string :=
  match fuel with
  | O => acc
  | S fuel' =>
      let acc' := String (digit_char (n mod 10)) acc in
      if n <? 10 then acc' else format_digits fuel' (n / 10) acc'
  end.

(** [strconv.Itoa] on an [int]: at most nineteen digits after the sign. *)
Definition Itoa (n : Z) : string :=
  if n <? 0 then String "-"%char (format_digits 19 (- n) EmptyString)
  else format_digits 19 n EmptyString.

Definition getEnvString (env : gmap string string) (key defaultValue : string) : string :=
  let value := Getenv env key in
  if decide (value ≠ "") then value else defaultValue.

Definition getEnvInt (env : gmap string string) (key : string) (defaultValue : Z) : Z :=
  let value := Getenv env key in
  if decide (value ≠ "") then
    match Atoi value with
    | Some intValue => intValue
    | None => defaultValue
    end
  else defaultValue.

(** The errors of [validate], with the values their messages print, and
    the wrapping of [Load]. *)
Inductive ConfigError : Type :=
  | ErrPort (port : Z)
  | ErrLogLevel (level : string)
  | ErrEndpoint
  | ErrInvalidConfiguration (err : ConfigError).

Definition validLogLevels : gmap string bool :=
  {["DEBUG" := true; "INFO" := true; "WARN" := true; "ERROR" := true]}.

Definition validate (c : Config) : option ConfigError :=
  if decide (Port c < 1 ∨ Port c > 65535) then Some (ErrPort (Port c))
  else if negb (default false (validLogLevels !! LogLevel c))
  then Some (ErrLogLevel (LogLevel c))
  else if decide (OTELEndpoint c = "") then Some ErrEndpoint
  else None.

Definition Load (env : gmap string string) : ConfigError + Config :=
  let cfg := mkConfig (getEnvInt env "PORT" 8080)
                      (getEnvString env "LOG_LEVEL" "INFO")
                      (getEnvString env "OTEL_EXPORTER_OTLP_ENDPOINT" "localhost:4317")
                      (getEnvString env "ENVIRONMENT" "development") in
  match validate cfg with
  | Some err => inl (ErrInvalidConfiguration err)
  | None => inr cfg
  end.

(** * Properties *)

(** ** Arithmetic of [int64] *)

Lemma wrap64_small (z : Z) : in_int64 z → wrap64 z = z.
Proof.
  unfold in_int64, wrap64, min_int64, max_int64. intros Hz.
  rewrite Z.mod_small; lia.
Qed.

Lemma wrap64_range (z : Z) : in_int64 (wrap64 z).
Proof.
  unfold in_int64, wrap64, min_int64, max_int64.
  pose proof (Z.mod_pos_bound (z + 2 ^ 63) (2 ^ 64)). lia.
Qed.

Lemma incr64_no_overflow (x : Z) :
  in_int64 x → x < max_int64 → incr64 x = x + 1.
Proof.
  unfold incr64, in_int64. intros Hx Hlt. apply wrap64_small.
  unfold in_int64. lia.
Qed.

(** Below the largest [int64] an increment never goes down. *)
Lemma incr64_le (x : Z) : x < max_int64 → x <= incr64 x.
Proof.
  intros Hlt. destruct (decide (min_int64 <= x)) as [Hge|Hlo].
  - rewrite incr64_no_overflow; unfold in_int64; lia.
  - pose proof (wrap64_range (x + 1)) as Hr. unfold incr64, in_int64 in *. lia.
Qed.

(** At the largest [int64] the increment wraps around. *)
Lemma incr64_wraps : incr64 max_int64 = min_int64.
Proof. reflexivity. Qed.

(** ** Differences of instants *)

(** A difference that fits a [Duration] is returned as it is. *)
Lemma Sub_exact (t u : Time) : in_int64 (t - u) → Sub t u = t - u.
Proof.
  unfold Sub, in_int64, maxDuration, minDuration. intros Hr. cbn zeta.
  rewrite !bool_decide_eq_false_2 by lia. done.
Qed.

(** On [int64] readings the wrap-around tests of [subMono] saturate the
    difference. *)
Lemma Sub_subMono (t u : Z) : in_int64 t → in_int64 u → subMono t u = Sub t u.
Proof.
  unfold subMono, Sub, in_int64, maxDuration, minDuration, max_int64, min_int64.
  intros Ht Hu. cbn zeta.
  destruct (decide (t - u > 9223372036854775807)) as [Hhi|Hhi].
  - assert (Hw : wrap64 (t - u) = t - u - 2 ^ 64).
    { unfold wrap64. rewrite <- (Z.mod_add _ (-1) (2 ^ 64)) by lia.
      rewrite Z.mod_small; lia. }
    rewrite Hw. rewrite (bool_decide_eq_true_2 (_ ∧ _)) by lia.
    by rewrite bool_decide_eq_true_2.
  - destruct (decide (t - u < -9223372036854775808)) as [Hlo|Hlo].
    + assert (Hw : wrap64 (t - u) = t - u + 2 ^ 64).
      { unfold wrap64. rewrite <- (Z.mod_add _ 1 (2 ^ 64)) by lia.
        rewrite Z.mod_small; lia. }
      rewrite Hw. rewrite (bool_decide_eq_false_2 (_ ∧ _)) by lia.
      rewrite (bool_decide_eq_true_2 (_ ∧ _)) by lia.
      rewrite (bool_decide_eq_false_2 (_ > _)) by lia.
      by rewrite bool_decide_eq_true_2.
    + rewrite wrap64_small by (unfold in_int64, min_int64, max_int64; lia).
      rewrite !(bool_decide_eq_false_2 (_ ∧ _)) by lia.
      rewrite (bool_decide_eq_false_2 (_ > _)) by lia.
      by rewrite bool_decide_eq_false_2.
Qed.

(** ** The state monad *)

Lemma exec_bind {A B} (m : M A) (k : A → M B) (w : World) :
  exec (bind m k) w = exec (k (eval m w)) (exec m w).
Proof. unfold exec, eval, bind. destruct (m w). reflexivity. Qed.

Lemma eval_bind {A B} (m : M A) (k : A → M B) (w : World) :
  eval (bind m k) w = eval (k (eval m w)) (exec m w).
Proof. unfold exec, eval, bind. destruct (m w). reflexivity. Qed.

Ltac run :=
  repeat (rewrite ?exec_bind, ?eval_bind;
          cbn [exec eval ret emit get modify Now write_session fst snd
               svc clock reads output]).

(** ** [updateSession] *)

Lemma updateSession_existing (event : TrackingEvent) (w : World) (d : SessionData) :
  sessions (svc w) !! SessionID event = Some d →
  exec (updateSession event) w =
    mkWorld (set_sessions
               (<[SessionID event := folded event (clock w (reads w)) d]>
                  (sessions (svc w))) (svc w))
            (clock w) (S (reads w)) (output w).
Proof.
  intros Hd. unfold updateSession. run. rewrite Hd. run.
  unfold folded. destruct (decide (EventType event = "click")); run;
    unfold set_sessions; cbn; f_equal; f_equal;
    apply map_eq; intros k; destruct (decide (k = SessionID event)) as [->|Hk];
    rewrite ?lookup_alter_eq, ?lookup_insert_eq, ?Hd,
            ?lookup_alter_ne, ?lookup_insert_ne by done; done.
Qed.

Lemma updateSession_fresh (event : TrackingEvent) (w : World) :
  sessions (svc w) !! SessionID event = None →
  exec (updateSession event) w =
    mkWorld (set_sessionCounter (incr64 (sessionCounter (svc w)))
               (set_sessions
                  (<[SessionID event :=
                       folded event (clock w (S (S (reads w))))
                         (mkSession (SessionID event) (clock w (reads w))
                                    (clock w (S (reads w))) 0 [])]>
                     (sessions (svc w))) (svc w)))
            (clock w) (S (S (S (reads w)))) (output w).
Proof.
  intros Hd. unfold updateSession, createSession. run. rewrite Hd. run.
  unfold folded. destruct (decide (EventType event = "click")); run;
    unfold set_sessions, set_sessionCounter; cbn; f_equal; f_equal;
    apply map_eq; intros k; destruct (decide (k = SessionID event)) as [->|Hk];
    rewrite ?lookup_alter_eq, ?lookup_insert_eq,
            ?lookup_alter_ne, ?lookup_insert_ne by done;
    rewrite ?lookup_alter_eq, ?lookup_insert_eq,
            ?lookup_alter_ne, ?lookup_insert_ne by done; done.
Qed.

(** ** The recorders *)

Lemma for_range_custom (l : list (string * Any)) (w : World) :
  exec (for_range custom_attribute l) w =
    mkWorld (svc w) (clock w) (reads w) (output w ++ concat (custom_effects <$> l)).
Proof.
  revert w. induction l as [|kv l IH]; intros w.
  - destruct w. cbn. by rewrite app_nil_r.
  - cbn [for_range]. run. rewrite IH. unfold custom_attribute, custom_effects.
    cbn [fmap list_fmap concat]. destruct (as_string kv.2); run.
    + by rewrite <- app_assoc.
    + done.
Qed.

Lemma recordCustomEvent_exec (event : TrackingEvent) (w : World) :
  exec (recordCustomEvent event) w =
    mkWorld (svc w) (clock w) (reads w)
      (output w ++
       [SpanStart "custom_event";
        SpanSetAttributes "custom_event"
          [("custom.element_id", VString (ElementID event));
           ("custom.session_id", VString (SessionID event))]] ++
       concat (custom_effects <$> map_to_list (Custom event)) ++
       [SpanEnd "custom_event"]).
Proof.
  unfold recordCustomEvent. run. rewrite for_range_custom. run.
  f_equal. by rewrite <- !app_assoc.
Qed.

Lemma ProcessTrackingEvent_unfold (event : TrackingEvent) :
  ProcessTrackingEvent event =
    (emit (SpanStart "process_tracking_event") ;;;
     emit (SpanSetAttributes "process_tracking_event"
             [("event.type", VString (EventType event));
              ("session.id", VString (SessionID event));
              ("cursor.x", VInt (CursorX event));
              ("cursor.y", VInt (CursorY event))]) ;;;
     updateSession event ;;;
     dispatch event ;;;
     emit (Slog LevelInfo "Event processed"
             [("event_type", VString (EventType event));
              ("session_id", VString (SessionID event));
              ("element_id", VString (ElementID event));
              ("timestamp", VTime (Timestamp event))]) ;;;
     emit (SpanEnd "process_tracking_event") ;;;
     ret None).
Proof. reflexivity. Qed.

(** [updateSession] writes nothing to the collaborators and leaves the
    clock stream alone. *)
Lemma updateSession_output (event : TrackingEvent) (w : World) :
  output (exec (updateSession event) w) = output w.
Proof.
  destruct (sessions (svc w) !! SessionID event) as [d|] eqn:Hd.
  - by rewrite (updateSession_existing _ _ _ Hd).
  - by rewrite (updateSession_fresh _ _ Hd).
Qed.

Lemma updateSession_clickCounter (event : TrackingEvent) (w : World) :
  clickCounter (svc (exec (updateSession event) w)) = clickCounter (svc w).
Proof.
  destruct (sessions (svc w) !! SessionID event) as [d|] eqn:Hd.
  - by rewrite (updateSession_existing _ _ _ Hd).
  - by rewrite (updateSession_fresh _ _ Hd).
Qed.

Lemma updateSession_pageViews (event : TrackingEvent) (w : World) :
  pageViews (svc (exec (updateSession event) w)) = pageViews (svc w).
Proof.
  destruct (sessions (svc w) !! SessionID event) as [d|] eqn:Hd.
  - by rewrite (updateSession_existing _ _ _ Hd).
  - by rewrite (updateSession_fresh _ _ Hd).
Qed.

Lemma updateSession_sessionCounter (event : TrackingEvent) (w : World) :
  sessionCounter (svc (exec (updateSession event) w)) =
    match sessions (svc w) !! SessionID event with
    | Some _ => sessionCounter (svc w)
    | None => incr64 (sessionCounter (svc w))
    end.
Proof.
  destruct (sessions (svc w) !! SessionID event) as [d|] eqn:Hd.
  - by rewrite (updateSession_existing _ _ _ Hd).
  - by rewrite (updateSession_fresh _ _ Hd).
Qed.

(** The session stored under the event's id after [updateSession]. *)
Lemma updateSession_lookup (event : TrackingEvent) (w : World) :
  sessions (svc (exec (updateSession event) w)) !! SessionID event =
    Some match sessions (svc w) !! SessionID event with
         | Some d => folded event (clock w (reads w)) d
         | None =>
             folded event (clock w (S (S (reads w))))
               (mkSession (SessionID event) (clock w (reads w))
                          (clock w (S (reads w))) 0 [])
         end.
Proof.
  destruct (sessions (svc w) !! SessionID event) as [d|] eqn:Hd.
  - rewrite (updateSession_existing _ _ _ Hd). cbn. by rewrite lookup_insert_eq.
  - rewrite (updateSession_fresh _ _ Hd). cbn. by rewrite lookup_insert_eq.
Qed.

Lemma updateSession_lookup_other (event : TrackingEvent) (w : World) (sid : string) :
  sid ≠ SessionID event →
  sessions (svc (exec (updateSession event) w)) !! sid = sessions (svc w) !! sid.
Proof.
  intros Hne.
  destruct (sessions (svc w) !! SessionID event) as [d|] eqn:Hd.
  - rewrite (updateSession_existing _ _ _ Hd). cbn. by rewrite lookup_insert_ne.
  - rewrite (updateSession_fresh _ _ Hd). cbn. by rewrite lookup_insert_ne.
Qed.

(** The [switch] touches the click counter only, and only for a click. *)
Lemma dispatch_svc (event : TrackingEvent) (w : World) :
  svc (exec (dispatch event) w) =
    if decide (EventType event = "click")
    then set_clickCounter (incr64 (clickCounter (svc w))) (svc w)
    else svc w.
Proof.
  unfold dispatch. repeat case_decide.
  - unfold recordClick. run. done.
  - unfold recordCursorPosition. run. done.
  - unfold recordScrollEvent. run. done.
  - by rewrite recordCustomEvent_exec.
  - done.
Qed.

Lemma ProcessTrackingEvent_svc (event : TrackingEvent) (w : World) :
  svc (exec (ProcessTrackingEvent event) w) =
    let s := svc (exec (updateSession event) w) in
    if decide (EventType event = "click")
    then set_clickCounter (incr64 (clickCounter s)) s
    else s.
Proof.
  rewrite ProcessTrackingEvent_unfold. run.
  rewrite dispatch_svc. cbn zeta.
  set (w1 := mkWorld _ _ _ _).
  assert (Hs : svc (exec (updateSession event) w1) = svc (exec (updateSession event) w)).
  { destruct (sessions (svc w) !! SessionID event) as [d|] eqn:Hd.
    - rewrite (updateSession_existing event w d Hd).
      by rewrite (updateSession_existing event w1 d Hd).
    - rewrite (updateSession_fresh event w Hd).
      by rewrite (updateSession_fresh event w1 Hd). }
  by rewrite Hs.
Qed.

Lemma ProcessTrackingEvent_nil (event : TrackingEvent) (w : World) :
  eval (ProcessTrackingEvent event) w = None.
Proof. rewrite ProcessTrackingEvent_unfold. run. done. Qed.

(** ** What [ProcessTrackingEvent] writes for an unrecognized type *)

Lemma updateSession_frame (event : TrackingEvent) (w : World) :
  ∃ s' n, ∀ out,
    exec (updateSession event) (mkWorld (svc w) (clock w) (reads w) out) =
      mkWorld s' (clock w) n out.
Proof.
  destruct (sessions (svc w) !! SessionID event) as [d|] eqn:Hd.
  - eexists _, _. intros out.
    rewrite (updateSession_existing event (mkWorld (svc w) (clock w) (reads w) out) d Hd).
    cbn. reflexivity.
  - eexists _, _. intros out.
    rewrite (updateSession_fresh event (mkWorld (svc w) (clock w) (reads w) out) Hd).
    cbn. reflexivity.
Qed.

Lemma ProcessTrackingEvent_unrecognized_output (event : TrackingEvent) (w : World) :
  unrecognized event →
  output (exec (ProcessTrackingEvent event) w) =
    output w ++
    [SpanStart "process_tracking_event";
     SpanSetAttributes "process_tracking_event"
       [("event.type", VString (EventType event));
        ("session.id", VString (SessionID event));
        ("cursor.x", VInt (CursorX event));
        ("cursor.y", VInt (CursorY event))];
     Slog LevelWarn "Unknown event type" [("type", VString (EventType event))];
     Slog LevelInfo "Event processed"
       [("event_type", VString (EventType event));
        ("session_id", VString (SessionID event));
        ("element_id", VString (ElementID event));
        ("timestamp", VTime (Timestamp event))];
     SpanEnd "process_tracking_event"].
Proof.
  intros (Hc & Hm & Hs & Hu).
  rewrite ProcessTrackingEvent_unfold. run.
  destruct (updateSession_frame event w) as (s' & n & Hframe).
  rewrite Hframe. unfold dispatch. repeat case_decide; try done.
  run. by rewrite <- !app_assoc.
Qed.

(** C2: [ProcessTrackingEvent] returns [nil] for every event, the empty
    event type included, and the event is appended to the events of the
    session stored under its session id. *)
Theorem ProcessTrackingEvent_always_nil (event : TrackingEvent) (w : World) :
  eval (ProcessTrackingEvent event) w = None ∧
  ∃ d, sessions (svc (exec (ProcessTrackingEvent event) w)) !! SessionID event = Some d ∧
       Events d =
         match sessions (svc w) !! SessionID event with
         | Some d0 => Events d0
         | None => []
         end ++ [event].
Proof.
  split; [apply ProcessTrackingEvent_nil|].
  rewrite ProcessTrackingEvent_svc. cbn zeta.
  pose proof (updateSession_lookup event w) as Hl.
  eexists. split.
  - case_decide; [cbn|]; exact Hl.
  - by destruct (sessions (svc w) !! SessionID event).
Qed.

(** The empty event type is not special for the service layer. *)
Example ProcessTrackingEvent_empty_type :
  let w' := exec (ProcessTrackingEvent (event0 "" "s1")) world0 in
  eval (ProcessTrackingEvent (event0 "" "s1")) world0 = None ∧
  Events <$> sessions (svc w') !! "s1" = Some [event0 "" "s1"] ∧
  sessionCounter (svc w') = 1.
Proof. vm_compute. done. Qed.

(** ** The handler *)

(** C1: a POST request whose decoded event has an empty event type is
    answered with 400 Bad Request; the service (sessions and counters) is
    left as it was and no metric sample is written.  An event with a
    non-empty event type is answered with the success document. *)
Theorem TrackEvent_validation (r : Request) (event : TrackingEvent) (w : World) :
  Method r = MethodPost →
  Decoded r = inr event →
  (EventType event = "" →
     eval (TrackEvent r) w = HttpError "Event type is required" StatusBadRequest ∧
     svc (exec (TrackEvent r) w) = svc w ∧
     ∃ new, output (exec (TrackEvent r) w) = output w ++ new ∧
            Forall (λ e, is_metric e = false) new) ∧
  (EventType event ≠ "" →
     ∃ now, eval (TrackEvent r) w =
              HttpJSON [("status", VString "success");
                        ("timestamp", VTime now);
                        ("event_id", VString (SessionID event +:+ "_" +:+ EventType event))]).
Proof.
  intros Hpost Hdec. unfold TrackEvent. rewrite Hdec.
  destruct (decide (Method r ≠ MethodPost)) as [?|_]; [done|].
  split; intros Hty.
  - destruct (decide (EventType event = "")) as [_|?]; [|done].
    unfold finish. run. split_and!; [done..|].
    eexists. split; [by rewrite <- !app_assoc|].
    repeat constructor.
  - destruct (decide (EventType event = "")) as [?|_]; [done|].
    unfold finish.
    destruct (IsZero (Timestamp event));
      destruct (decide (PageURL event = "")) as [Hurl|Hurl];
      run; rewrite ?Hurl; cbn [PageURL set_UserAgent set_Timestamp];
      repeat (case_decide; try done);
      run; rewrite !ProcessTrackingEvent_nil; run;
      destruct (EncodeErr r); run; eexists; reflexivity.
Qed.

Lemma TrackEvent_validation_witness :
  eval (TrackEvent (request0 "" "s1")) world0 =
    HttpError "Event type is required" StatusBadRequest ∧
  svc (exec (TrackEvent (request0 "" "s1")) world0) = svc world0.
Proof.
  destruct (TrackEvent_validation (request0 "" "s1") (event0 "" "s1") world0
              eq_refl eq_refl) as [Hempty _].
  destruct (Hempty eq_refl) as (Hr & Hs & _).
  split; [exact Hr | exact Hs].
Defined.

(** ** Events of an unrecognized type *)

(** C9, as the code has it: an event whose type the [switch] does not
    know is processed without error, it is folded into its session, the
    warning is logged, the click and page-view counters keep their values
    and no metric sample is written; the session counter is incremented
    exactly when the session id was not stored before. *)
Theorem unrecognized_event_accepted (event : TrackingEvent) (w : World) :
  unrecognized event →
  let w' := exec (ProcessTrackingEvent event) w in
  eval (ProcessTrackingEvent event) w = None ∧
  sessions (svc w') !! SessionID event =
    Some match sessions (svc w) !! SessionID event with
         | Some d => folded event (clock w (reads w)) d
         | None =>
             folded event (clock w (S (S (reads w))))
               (mkSession (SessionID event) (clock w (reads w))
                          (clock w (S (reads w))) 0 [])
         end ∧
  clickCounter (svc w') = clickCounter (svc w) ∧
  pageViews (svc w') = pageViews (svc w) ∧
  sessionCounter (svc w') =
    match sessions (svc w) !! SessionID event with
    | Some _ => sessionCounter (svc w)
    | None => incr64 (sessionCounter (svc w))
    end ∧
  ∃ new, output w' = output w ++ new ∧
         Slog LevelWarn "Unknown event type" [("type", VString (EventType event))] ∈ new ∧
         Forall (λ e, is_metric e = false) new.
Proof.
  intros Hun. pose proof Hun as (Hc & _). cbn zeta.
  rewrite ProcessTrackingEvent_svc. cbn zeta.
  destruct (decide (EventType event = "click")) as [?|_]; [done|].
  split_and!.
  - apply ProcessTrackingEvent_nil.
  - apply updateSession_lookup.
  - apply updateSession_clickCounter.
  - apply updateSession_pageViews.
  - apply updateSession_sessionCounter.
  - eexists. split; [by apply ProcessTrackingEvent_unrecognized_output|].
    split; [set_solver|repeat constructor].
Qed.

Lemma unrecognized_event_accepted_witness :
  eval (ProcessTrackingEvent (event0 "hover" "s1")) world0 = None ∧
  clickCounter (svc (exec (ProcessTrackingEvent (event0 "hover" "s1")) world0)) = 0.
Proof.
  assert (Hun : unrecognized (event0 "hover" "s1")) by (repeat split; discriminate).
  destruct (unrecognized_event_accepted (event0 "hover" "s1") world0 Hun)
    as (Hnil & _ & Hclicks & _).
  split; [exact Hnil | exact Hclicks].
Defined.

(** C9 as stated fails: the event of type "hover" for the new session
    "s1" is of an unrecognized, non-empty type, and processing it moves
    the session counter from 0 to 1. *)
Lemma unrecognized_event_counts_session :
  let event := event0 "hover" "s1" in
  let w' := exec (ProcessTrackingEvent event) world0 in
  EventType event ≠ "" ∧ unrecognized event ∧
  eval (ProcessTrackingEvent event) world0 = None ∧
  sessionCounter (svc world0) = 0 ∧
  sessionCounter (svc w') = 1.
Proof.
  cbn zeta. split_and!; try (vm_compute; reflexivity); try discriminate.
  repeat split; discriminate.
Qed.

(** ** The upsert *)

Lemma createSession_exec (event : TrackingEvent) (w : World) :
  exec (createSession event) w =
    mkWorld (set_sessionCounter (incr64 (sessionCounter (svc w)))
               (set_sessions
                  (<[SessionID event :=
                       mkSession (SessionID event) (clock w (reads w))
                                 (clock w (S (reads w))) 0 []]>
                     (sessions (svc w))) (svc w)))
            (clock w) (S (S (reads w))) (output w).
Proof. unfold createSession. run. reflexivity. Qed.

(** C7, as the code has it.  For an unseen session id the created record
    takes its start from one reading of the clock and its last-active
    instant from the next one, with click count 0 and no events, and the
    session counter is incremented once; a stored session is kept.  Then,
    for every event, last-active becomes a further reading of the clock,
    the event is appended, and the click count is incremented exactly for
    a click; every other session is left alone. *)
Theorem updateSession_upsert (event : TrackingEvent) (w : World) :
  let sid := SessionID event in
  let w' := exec (updateSession event) w in
  match sessions (svc w) !! sid with
  | None =>
      let created := mkSession sid (clock w (reads w)) (clock w (S (reads w))) 0 [] in
      sessions (svc (exec (createSession event) w)) !! sid = Some created ∧
      sessionCounter (svc (exec (createSession event) w)) = incr64 (sessionCounter (svc w)) ∧
      sessions (svc w') !! sid =
        Some (mkSession sid (clock w (reads w)) (clock w (S (S (reads w))))
                (if decide (EventType event = "click") then incr64 0 else 0)
                [event]) ∧
      sessionCounter (svc w') = incr64 (sessionCounter (svc w))
  | Some d =>
      sessions (svc w') !! sid =
        Some (mkSession (ID d) (StartTime d) (clock w (reads w))
                (if decide (EventType event = "click")
                 then incr64 (ClickCount d) else ClickCount d)
                (Events d ++ [event])) ∧
      sessionCounter (svc w') = sessionCounter (svc w)
  end ∧
  (∀ other, other ≠ sid → sessions (svc w') !! other = sessions (svc w) !! other) ∧
  clickCounter (svc w') = clickCounter (svc w) ∧
  pageViews (svc w') = pageViews (svc w).
Proof.
  cbn zeta. split_and!.
  - pose proof (updateSession_lookup event w) as Hl.
    pose proof (updateSession_sessionCounter event w) as Hc.
    destruct (sessions (svc w) !! SessionID event) as [d|] eqn:Hd.
    + done.
    + rewrite createSession_exec. cbn. rewrite lookup_insert_eq. done.
  - intros other Hne. by apply updateSession_lookup_other.
  - apply updateSession_clickCounter.
  - apply updateSession_pageViews.
Qed.

(** C7 as stated fails: on a clock that advances with every reading the
    new session "s1" is created with start 1 and last-active 2, and is
    stored at the end of the call with start 1 and last-active 3; at no
    point do the two fields hold one common instant. *)
Lemma new_session_start_differs_from_last_active :
  let event := event0 "click" "s1" in
  sessions (svc world0) !! SessionID event = None ∧
  sessions (svc (exec (createSession event) world0)) !! SessionID event =
    Some (mkSession "s1" 1 2 0 []) ∧
  sessions (svc (exec (updateSession event) world0)) !! SessionID event =
    Some (mkSession "s1" 1 3 1 [event]) ∧
  ¬ (∃ now d,
       sessions (svc (exec (updateSession event) world0)) !! SessionID event = Some d ∧
       StartTime d = now ∧ LastActive d = now).
Proof.
  cbn zeta. split_and!; try (vm_compute; reflexivity).
  intros (now & d & Hd & Hs & Hl).
  vm_compute in Hd. injection Hd as <-. cbn in Hs, Hl. congruence.
Qed.

(** On the sample world the new session starts at reading 1 and was last
    active at reading 3. *)
Example updateSession_sample :
  sessions (svc (exec (updateSession (event0 "click" "s1")) world0)) !! "s1" =
    Some (mkSession "s1" 1 3 1 [event0 "click" "s1"]).
Proof. vm_compute. reflexivity. Qed.

(** ** The click count of a session *)

Lemma incr64_wrap64 (x : Z) : incr64 (wrap64 x) = wrap64 (x + 1).
Proof.
  unfold incr64, wrap64. f_equal.
  replace ((x + 2 ^ 63) mod 2 ^ 64 - 2 ^ 63 + 1 + 2 ^ 63)
    with ((x + 2 ^ 63) mod 2 ^ 64 + 1) by lia.
  rewrite Zplus_mod_idemp_l. f_equal. lia.
Qed.

Lemma count_clicks_nil : count_clicks [] = 0.
Proof. reflexivity. Qed.

Lemma count_clicks_cons (e : TrackingEvent) (es : list TrackingEvent) :
  count_clicks (e :: es) = (if is_click e then 1 else 0) + count_clicks es.
Proof.
  unfold count_clicks. rewrite filter_cons.
  destruct (is_click e); case_decide; try done; cbn [length]; lia.
Qed.

Lemma count_clicks_app (p q : list TrackingEvent) :
  count_clicks (p ++ q) = count_clicks p + count_clicks q.
Proof.
  induction p as [|e p IH]; [rewrite count_clicks_nil; cbn; lia|].
  cbn [app]. rewrite !count_clicks_cons, IH. lia.
Qed.

Lemma count_clicks_nonneg (es : list TrackingEvent) : 0 <= count_clicks es.
Proof. unfold count_clicks. lia. Qed.

Lemma ProcessTrackingEvent_lookup (event : TrackingEvent) (w : World) :
  sessions (svc (exec (ProcessTrackingEvent event) w)) !! SessionID event =
    sessions (svc (exec (updateSession event) w)) !! SessionID event.
Proof.
  rewrite ProcessTrackingEvent_svc. cbn zeta. by case_decide.
Qed.

Lemma folded_ClickCount (event : TrackingEvent) (t : Time) (d : SessionData) :
  ClickCount (folded event t d) =
    if is_click event then incr64 (ClickCount d) else ClickCount d.
Proof.
  unfold folded, is_click. cbn. case_decide.
  - by rewrite bool_decide_eq_true_2.
  - by rewrite bool_decide_eq_false_2.
Qed.

(** Folding more events into a stored session: the click count moves by
    the number of clicks, modulo the width of [int64]. *)
Lemma submit_all_stored (sid : string) (es : list TrackingEvent) :
  ∀ (w : World) (d0 : SessionData) (c0 : Z),
    sessions (svc w) !! sid = Some d0 →
    ClickCount d0 = wrap64 c0 →
    Forall (λ e, SessionID e = sid) es →
    ∃ d, sessions (svc (submit_all es w)) !! sid = Some d ∧
         ClickCount d = wrap64 (c0 + count_clicks es) ∧
         Events d = Events d0 ++ es.
Proof.
  induction es as [|e es IH]; intros w d0 c0 Hd0 Hc0 Hall.
  - exists d0. rewrite count_clicks_nil, Z.add_0_r, app_nil_r. done.
  - apply Forall_cons in Hall as [<- Hall]. cbn [submit_all foldl].
    pose proof (ProcessTrackingEvent_lookup e w) as Hl.
    rewrite updateSession_lookup, Hd0 in Hl.
    destruct (IH _ _ (c0 + if is_click e then 1 else 0) Hl) as (d & Hd & Hc & He);
      [|done|].
    + rewrite folded_ClickCount, Hc0. destruct (is_click e).
      * apply incr64_wrap64.
      * by rewrite Z.add_0_r.
    + exists d. split; [exact Hd|]. split.
      * rewrite Hc, count_clicks_cons. f_equal. lia.
      * rewrite He. cbn. by rewrite <- app_assoc.
Qed.

(** The same from a world that does not store the session yet. *)
Lemma submit_all_fresh (sid : string) (es : list TrackingEvent) (w : World) :
  sessions (svc w) !! sid = None →
  Forall (λ e, SessionID e = sid) es →
  es ≠ [] →
  ∃ d, sessions (svc (submit_all es w)) !! sid = Some d ∧
       ClickCount d = wrap64 (count_clicks es) ∧
       Events d = es.
Proof.
  intros Hnone Hall Hne. destruct es as [|e es]; [done|].
  apply Forall_cons in Hall as [<- Hall]. cbn [submit_all foldl].
  pose proof (ProcessTrackingEvent_lookup e w) as Hl.
  rewrite updateSession_lookup, Hnone in Hl.
  destruct (submit_all_stored (SessionID e) es _ _ (if is_click e then 1 else 0) Hl)
    as (d & Hd & Hc & He); [|done|].
  - rewrite folded_ClickCount. cbn. by destruct (is_click e).
  - exists d. split; [exact Hd|]. split.
    + by rewrite Hc, count_clicks_cons.
    + by rewrite He.
Qed.

(** C3: from a world that does not store the session, after every
    non-empty prefix of a sequence of events that share the session id the
    stored click count is the number of clicks of that prefix, and the
    stored events are the prefix. *)
Theorem session_click_count (sid : string) (es : list TrackingEvent) (w : World) :
  sessions (svc w) !! sid = None →
  Forall (λ e, SessionID e = sid) es →
  count_clicks es <= max_int64 →
  ∀ p, p `prefix_of` es → p ≠ [] →
    ∃ d, sessions (svc (submit_all p w)) !! sid = Some d ∧
         ClickCount d = count_clicks p ∧
         Events d = p.
Proof.
  intros Hnone Hall Hbound p [q ->] Hp.
  apply Forall_app in Hall as [Hall _].
  destruct (submit_all_fresh sid p w Hnone Hall Hp) as (d & Hd & Hc & He).
  exists d. split_and!; [done| |done].
  rewrite Hc. apply wrap64_small.
  rewrite count_clicks_app in Hbound.
  pose proof (count_clicks_nonneg p). pose proof (count_clicks_nonneg q).
  unfold in_int64, min_int64, max_int64 in *. lia.
Qed.

Lemma session_click_count_witness :
  ∃ d, sessions (svc (submit_all [event0 "click" "s1"; event0 "scroll" "s1";
                                   event0 "click" "s1"] world0)) !! "s1" = Some d ∧
       ClickCount d = 2.
Proof.
  destruct (session_click_count "s1"
              [event0 "click" "s1"; event0 "scroll" "s1"; event0 "click" "s1"] world0)
    with (p := [event0 "click" "s1"; event0 "scroll" "s1"; event0 "click" "s1"])
    as (d & Hd & Hc & _).
  - reflexivity.
  - repeat constructor.
  - vm_compute. discriminate.
  - reflexivity.
  - discriminate.
  - exists d. split; [exact Hd | exact Hc].
Defined.

(** ** Eviction *)

Section cleanup.
Variables (now : Time) (maxAge : Duration).

(** Deleting never brings a key back. *)
Lemma cleanup_fold_absent (l : list (string * SessionData))
    (m : gmap string SessionData) (k : string) :
  m !! k = None → foldl (cleanup_entry now maxAge) m l !! k = None.
Proof.
  revert m. induction l as [|[k' d'] l IH]; intros m Hm; [done|].
  cbn [foldl]. apply IH. unfold cleanup_entry. cbn.
  case_bool_decide; [|done].
  destruct (decide (k' = k)) as [->|Hne].
  - apply lookup_delete_eq.
  - by rewrite lookup_delete_ne.
Qed.

(** A key none of whose listed records is stale keeps its record. *)
Lemma cleanup_fold_kept (l : list (string * SessionData))
    (m : gmap string SessionData) (k : string) :
  (∀ d, (k, d) ∈ l → ¬ stale now maxAge d) →
  foldl (cleanup_entry now maxAge) m l !! k = m !! k.
Proof.
  revert m. induction l as [|[k' d'] l IH]; intros m Hl; [done|].
  cbn [foldl]. rewrite IH.
  - unfold cleanup_entry. cbn. case_bool_decide as Hst; [|done].
    destruct (decide (k' = k)) as [->|Hne].
    + exfalso. apply (Hl d'); [left|exact Hst].
    + by rewrite lookup_delete_ne.
  - intros d Hd. apply Hl. by right.
Qed.

(** A key listed with a stale record is removed. *)
Lemma cleanup_fold_removed (l : list (string * SessionData))
    (m : gmap string SessionData) (k : string) (d : SessionData) :
  (k, d) ∈ l → stale now maxAge d →
  foldl (cleanup_entry now maxAge) m l !! k = None.
Proof.
  revert m. induction l as [|[k' d'] l IH]; intros m Hin Hst.
  - by apply elem_of_nil in Hin.
  - cbn [foldl]. apply elem_of_cons in Hin as [Heq|Hin].
    + injection Heq as <- <-. apply cleanup_fold_absent.
      unfold cleanup_entry. cbn. rewrite bool_decide_eq_true_2 by done.
      apply lookup_delete_eq.
    + by apply IH.
Qed.
End cleanup.

Lemma CleanupOldSessions_exec (maxAge : Duration) (w : World) :
  exec (CleanupOldSessions maxAge) w =
    mkWorld (set_sessions
               (foldl (cleanup_entry (clock w (reads w)) maxAge) (sessions (svc w))
                      (map_to_list (sessions (svc w)))) (svc w))
            (clock w) (S (reads w)) (output w).
Proof. unfold CleanupOldSessions. run. reflexivity. Qed.

(** The session stored under [sid] after [CleanupOldSessions]. *)
Lemma CleanupOldSessions_lookup (maxAge : Duration) (w : World) (sid : string) :
  sessions (svc (exec (CleanupOldSessions maxAge) w)) !! sid =
    match sessions (svc w) !! sid with
    | Some d => if bool_decide (stale (clock w (reads w)) maxAge d) then None else Some d
    | None => None
    end.
Proof.
  rewrite CleanupOldSessions_exec. cbn.
  destruct (sessions (svc w) !! sid) as [d|] eqn:Hd.
  - case_bool_decide as Hst.
    + apply (cleanup_fold_removed _ _ _ _ _ d); [|done].
      by apply elem_of_map_to_list.
    + rewrite cleanup_fold_kept; [done|].
      intros d' Hd'. apply elem_of_map_to_list in Hd'. congruence.
  - by apply cleanup_fold_absent.
Qed.

(** A difference that fits a [Duration] is compared with [maxAge] as it
    is. *)
Lemma stale_exact (now : Time) (maxAge : Duration) (d : SessionData) :
  in_int64 (now - LastActive d) →
  stale now maxAge d ↔ now - LastActive d > maxAge.
Proof. intros Hr. unfold stale. by rewrite Sub_exact. Qed.

(** C4: [CleanupOldSessions] removes exactly the sessions for which
    [now - last_active > maxAge], where [now] is the reading of the clock
    the call takes; it keeps every other session as the very same record
    and adds none; when [now - last_active <= maxAge] for every stored
    session, the map is unchanged.  The differences [now - last_active]
    are taken to fit a [Duration] (292 years), as they do for instants
    read from the clock of one process. *)
Theorem CleanupOldSessions_evicts (maxAge : Duration) (w : World) :
  let now := clock w (reads w) in
  let w' := exec (CleanupOldSessions maxAge) w in
  (∀ sid d, sessions (svc w) !! sid = Some d → in_int64 (now - LastActive d)) →
  (∀ sid,
     sessions (svc w') !! sid =
       match sessions (svc w) !! sid with
       | Some d => if bool_decide (now - LastActive d > maxAge) then None else Some d
       | None => None
       end) ∧
  ((∀ sid d, sessions (svc w) !! sid = Some d → now - LastActive d <= maxAge) →
   sessions (svc w') = sessions (svc w)).
Proof.
  cbn zeta. intros Hrange.
  assert (Hlookup : ∀ sid,
    sessions (svc (exec (CleanupOldSessions maxAge) w)) !! sid =
      match sessions (svc w) !! sid with
      | Some d => if bool_decide (clock w (reads w) - LastActive d > maxAge)
                  then None else Some d
      | None => None
      end).
  { intros sid. rewrite CleanupOldSessions_lookup.
    destruct (sessions (svc w) !! sid) as [d|] eqn:Hd; [|done].
    pose proof (stale_exact _ maxAge d (Hrange sid d Hd)) as Hst.
    repeat case_bool_decide; tauto. }
  split; [exact Hlookup|].
  intros Hfresh. apply map_eq. intros sid. rewrite Hlookup.
  destruct (sessions (svc w) !! sid) as [d|] eqn:Hd; [|done].
  rewrite bool_decide_eq_false_2; [done|]. specialize (Hfresh sid d Hd). lia.
Qed.

(** Session "s1" was last active four hours and session "s2" one hour
    before the call: with a maximal age of ninety minutes the first is
    removed and the second is kept as it was. *)
Lemma CleanupOldSessions_evicts_witness :
  let w := submit_all [event0 "click" "s1"; event0 "scroll" "s2"] world_hourly in
  let w' := exec (CleanupOldSessions (90 * Minute)) w in
  is_Some (sessions (svc w) !! "s1") ∧
  sessions (svc w') !! "s1" = None ∧
  is_Some (sessions (svc w') !! "s2") ∧
  sessions (svc w') !! "s2" = sessions (svc w) !! "s2".
Proof.
  cbn zeta.
  destruct (CleanupOldSessions_evicts (90 * Minute)
              (submit_all [event0 "click" "s1"; event0 "scroll" "s2"] world_hourly))
    as [Hlookup _].
  { set (w := submit_all [event0 "click" "s1"; event0 "scroll" "s2"] world_hourly).
    apply (bool_decide_eq_true_1
             (map_Forall (λ _ d, in_int64 (clock w (reads w) - LastActive d))
                         (sessions (svc w)))).
    vm_compute. reflexivity. }
  rewrite !Hlookup. vm_compute. split_and!; try reflexivity; by eexists.
Defined.

(** Two events of session "s1" one hour apart, then an eviction with a
    maximal age of thirty minutes: the session is gone, the counters stay. *)
Example eviction_scenario :
  let w2 := submit_all [event0 "click" "s1"; event0 "click" "s1"] world_hourly in
  let w3 := exec (CleanupOldSessions (30 * Minute)) w2 in
  ClickCount <$> sessions (svc w2) !! "s1" = Some 2 ∧
  sessions (svc w3) !! "s1" = None ∧
  clickCounter (svc w3) = 2 ∧ sessionCounter (svc w3) = 1.
Proof. vm_compute. done. Qed.

(** A session last active at the zero instant, more than 292 years before
    the reading of the clock: [Sub] returns the largest duration and the
    session is removed. *)
Example eviction_of_zero_instant :
  let w := mkWorld (mkService 0 0 0 1 {["z" := mkSession "z" 0 0 0 []]})
                   (λ _, 63082281600000000000) 1 [] in
  Sub 63082281600000000000 0 = maxDuration ∧
  sessions (svc (exec (CleanupOldSessions (30 * Minute)) w)) !! "z" = None.
Proof. vm_compute. done. Qed.

(** C8: [CleanupOldSessions] leaves the three counters as they were,
    whatever it removes. *)
Theorem CleanupOldSessions_counters (maxAge : Duration) (w : World) :
  let w' := exec (CleanupOldSessions maxAge) w in
  clickCounter (svc w') = clickCounter (svc w) ∧
  pageViews (svc w') = pageViews (svc w) ∧
  sessionCounter (svc w') = sessionCounter (svc w).
Proof.
  cbn zeta. rewrite CleanupOldSessions_exec.
  cbn [svc set_sessions clickCounter pageViews sessionCounter].
  split_and!; reflexivity.
Qed.

(** ** The counters *)

Lemma ProcessTrackingEvent_counters_le (event : TrackingEvent) (w : World) :
  counters_below_max (svc w) →
  counters_le (svc w) (svc (exec (ProcessTrackingEvent event) w)).
Proof.
  intros (Hc & Hp & Hs). unfold counters_le.
  rewrite ProcessTrackingEvent_svc. cbn zeta.
  pose proof (updateSession_clickCounter event w) as Ec.
  pose proof (updateSession_pageViews event w) as Ep.
  pose proof (updateSession_sessionCounter event w) as Es.
  pose proof (incr64_le _ Hc). pose proof (incr64_le _ Hs).
  case_decide; cbn; rewrite ?Ec, ?Ep, ?Es;
    destruct (sessions (svc w) !! SessionID event); lia.
Qed.

Lemma TrackEvent_svc (r : Request) (w : World) :
  svc (exec (TrackEvent r) w) = svc w ∨
  ∃ event w0, svc w0 = svc w ∧
              svc (exec (TrackEvent r) w) = svc (exec (ProcessTrackingEvent event) w0).
Proof.
  unfold TrackEvent, finish.
  destruct (decide (Method r ≠ MethodPost)); [left; run; done|].
  destruct (Decoded r) as [err|event]; [left; run; done|].
  destruct (decide (EventType event = "")); [left; run; done|].
  right.
  destruct (IsZero (Timestamp event)); run;
    rewrite !ProcessTrackingEvent_nil; run;
    destruct (EncodeErr r); run; eexists _, _; (split; [|reflexivity]); done.
Qed.

Lemma TrackPageView_svc (w : World) :
  svc (exec TrackPageView w) = set_pageViews (incr64 (pageViews (svc w))) (svc w).
Proof. unfold TrackPageView. run. reflexivity. Qed.

Lemma GetHealthMetrics_svc (duration_String : Duration → string) (w : World) :
  svc (exec (GetHealthMetrics duration_String) w) = svc w.
Proof. unfold GetHealthMetrics, Since. run. reflexivity. Qed.

Lemma GetClickRate_exec (duration : Duration) (w : World) :
  exec (GetClickRate duration) w = w.
Proof.
  unfold GetClickRate. run.
  destruct (f64_eqb (Minutes duration) f64_zero); by destruct w.
Qed.

(** C6: as long as no counter has reached the largest [int64], no
    operation of the service or of the handler takes the click counter,
    the page-view counter or the session counter below its value. *)
Theorem counters_monotone (op : Op) (w : World) :
  counters_below_max (svc w) →
  counters_le (svc w) (svc (step op w)).
Proof.
  intros Hb. destruct op as [r|event| |maxAge|fmt|duration]; cbn [step].
  - destruct (TrackEvent_svc r w) as [->|(event & w0 & Hw0 & ->)].
    + unfold counters_le. lia.
    + rewrite <- Hw0. apply ProcessTrackingEvent_counters_le. by rewrite Hw0.
  - by apply ProcessTrackingEvent_counters_le.
  - rewrite TrackPageView_svc. destruct Hb as (_ & Hp & _).
    pose proof (incr64_le _ Hp). unfold counters_le. cbn. lia.
  - rewrite CleanupOldSessions_exec. unfold counters_le. cbn. lia.
  - rewrite GetHealthMetrics_svc. unfold counters_le. lia.
  - rewrite GetClickRate_exec. unfold counters_le. lia.
Qed.

Lemma counters_monotone_witness :
  counters_le (svc world0)
    (svc (step (OpProcessTrackingEvent (event0 "click" "s1")) world0)).
Proof.
  apply (counters_monotone (OpProcessTrackingEvent (event0 "click" "s1")) world0).
  repeat split.
Defined.

(** The state the hypothesis of C6 excludes: at the largest [int64] the
    atomic increment wraps around. *)
Example click_counter_wraps :
  let w := mkWorld (mkService 0 max_int64 0 0 ∅) ticking 1 [] in
  clickCounter (svc (exec (ProcessTrackingEvent (event0 "click" "s1")) w)) = min_int64.
Proof. vm_compute. reflexivity. Qed.

(** ** Custom events *)

Lemma span_attributes_app (span : string) (a b : list Effect) :
  span_attributes span (a ++ b) = span_attributes span a ++ span_attributes span b.
Proof. unfold span_attributes. by rewrite fmap_app, concat_app. Qed.

Lemma span_attributes_custom (l : list (string * Any)) :
  span_attributes "custom_event" (concat (custom_effects <$> l)) =
    omap custom_string_attribute l.
Proof.
  induction l as [|[k v] l IH]; [done|].
  cbn [fmap list_fmap concat omap list_omap]. rewrite span_attributes_app, IH.
  unfold custom_effects, custom_string_attribute. cbn [fst snd].
  destruct v; reflexivity.
Qed.

Lemma ProcessTrackingEvent_custom_output (event : TrackingEvent) (w : World) :
  EventType event = "custom" →
  output (exec (ProcessTrackingEvent event) w) =
    output w ++
    [SpanStart "process_tracking_event";
     SpanSetAttributes "process_tracking_event"
       [("event.type", VString (EventType event));
        ("session.id", VString (SessionID event));
        ("cursor.x", VInt (CursorX event));
        ("cursor.y", VInt (CursorY event))]] ++
    ([SpanStart "custom_event";
      SpanSetAttributes "custom_event"
        [("custom.element_id", VString (ElementID event));
         ("custom.session_id", VString (SessionID event))]] ++
     concat (custom_effects <$> map_to_list (Custom event)) ++
     [SpanEnd "custom_event"]) ++
    [Slog LevelInfo "Event processed"
       [("event_type", VString (EventType event));
        ("session_id", VString (SessionID event));
        ("element_id", VString (ElementID event));
        ("timestamp", VTime (Timestamp event))];
     SpanEnd "process_tracking_event"].
Proof.
  intros Hty. rewrite ProcessTrackingEvent_unfold. run.
  destruct (updateSession_frame event w) as (s' & n & Hframe).
  rewrite Hframe. unfold dispatch. rewrite Hty.
  repeat (case_decide; try done).
  rewrite recordCustomEvent_exec. run.
  by rewrite <- !app_assoc.
Qed.

(** The attributes the loop of [recordCustomEvent] sets when it visits
    the entries in the order [entries]. *)
Lemma for_range_custom_attributes (entries : list (string * Any)) (w : World) :
  span_attributes "custom_event" (emitted (for_range custom_attribute entries) w) =
    omap custom_string_attribute entries.
Proof.
  unfold emitted. rewrite for_range_custom. cbn [output].
  rewrite drop_app_length. apply span_attributes_custom.
Qed.

(** The attributes of the string-valued entries of a map. *)
Lemma elem_of_custom_string_attributes (m : gmap string Any) (kv : KeyValue) :
  kv ∈ omap custom_string_attribute (map_to_list m) ↔
  ∃ key str, m !! key = Some (VString str) ∧ kv = ("custom." +:+ key, VString str).
Proof.
  rewrite list_elem_of_omap. split.
  - intros ([k v] & Hin & Hkv). apply elem_of_map_to_list in Hin.
    unfold custom_string_attribute in Hkv. cbn in Hkv.
    destruct v; try discriminate. injection Hkv as <-. eauto.
  - intros (key & str & Hin & ->).
    exists (key, VString str). split; [by apply elem_of_map_to_list|done].
Qed.

(** C10: processing an event of type "custom" returns no error.  The
    attributes it sets on the span "custom_event" are the element id and
    the session id, set first, and then one attribute "custom." + key for
    every entry of the custom map whose value is a string, with that
    string; an entry whose value is not a string sets no attribute.  The
    attributes of the entries are stated up to their order, and the loop
    sets the same ones, up to their order, in whatever order it visits the
    entries of the map. *)
Theorem custom_event_attributes (event : TrackingEvent) (w : World) :
  EventType event = "custom" →
  eval (ProcessTrackingEvent event) w = None ∧
  (∃ new rest,
     output (exec (ProcessTrackingEvent event) w) = output w ++ new ∧
     span_attributes "custom_event" new =
       [("custom.element_id", VString (ElementID event));
        ("custom.session_id", VString (SessionID event))] ++ rest ∧
     rest ≡ₚ omap custom_string_attribute (map_to_list (Custom event)) ∧
     ∀ kv, kv ∈ span_attributes "custom_event" new ↔
           kv = ("custom.element_id", VString (ElementID event)) ∨
           kv = ("custom.session_id", VString (SessionID event)) ∨
           ∃ key str, Custom event !! key = Some (VString str) ∧
                      kv = ("custom." +:+ key, VString str)) ∧
  (∀ entries w0,
     entries ≡ₚ map_to_list (Custom event) →
     span_attributes "custom_event" (emitted (for_range custom_attribute entries) w0)
       ≡ₚ omap custom_string_attribute (map_to_list (Custom event)) ∧
     ∀ kv, kv ∈ span_attributes "custom_event"
                  (emitted (for_range custom_attribute entries) w0) ↔
           ∃ key str, Custom event !! key = Some (VString str) ∧
                      kv = ("custom." +:+ key, VString str)).
Proof.
  intros Hty. split; [apply ProcessTrackingEvent_nil|]. split.
  - eexists _, (omap custom_string_attribute (map_to_list (Custom event))).
    split; [by apply ProcessTrackingEvent_custom_output|].
    assert (Hattrs : ∀ a b c d e f,
      span_attributes "custom_event"
        ([SpanStart "process_tracking_event"; SpanSetAttributes "process_tracking_event" a] ++
         ([SpanStart "custom_event"; SpanSetAttributes "custom_event" [b; c]] ++
          concat (custom_effects <$> d) ++ [SpanEnd "custom_event"]) ++
         [Slog LevelInfo e f; SpanEnd "process_tracking_event"]) =
      [b; c] ++ omap custom_string_attribute d).
    { intros. rewrite !span_attributes_app, span_attributes_custom.
      cbn. by rewrite !app_nil_r. }
    rewrite Hattrs. split; [done|]. split; [done|].
    intros kv. rewrite elem_of_app, elem_of_cons, elem_of_cons, elem_of_nil.
    rewrite elem_of_custom_string_attributes. tauto.
  - intros entries w0 Hperm. rewrite for_range_custom_attributes.
    assert (Hp : omap custom_string_attribute entries ≡ₚ
                 omap custom_string_attribute (map_to_list (Custom event))).
    { by rewrite Hperm. }
    split; [exact Hp|].
    intros kv. rewrite Hp. apply elem_of_custom_string_attributes.
Qed.

(** A custom map with two strings and a number.  The second part is
    applied to the entries in two different orders. *)
Lemma custom_event_attributes_witness :
  let m : gmap string Any :=
    {["label" := VString "demo"; "count" := VInt 3; "zone" := VString "a"]} in
  let event := event_custom m in
  (eval (ProcessTrackingEvent event) world0 = None ∧
   ("custom.label", VString "demo") ∈
     span_attributes "custom_event" (emitted (ProcessTrackingEvent event) world0) ∧
   ("custom.zone", VString "a") ∈
     span_attributes "custom_event" (emitted (ProcessTrackingEvent event) world0)) ∧
  span_attributes "custom_event"
    (emitted (for_range custom_attribute
                [("label", VString "demo"); ("count", VInt 3); ("zone", VString "a")])
             world0)
    ≡ₚ omap custom_string_attribute (map_to_list m) ∧
  span_attributes "custom_event"
    (emitted (for_range custom_attribute
                [("zone", VString "a"); ("count", VInt 3); ("label", VString "demo")])
             world0)
    ≡ₚ omap custom_string_attribute (map_to_list m).
Proof.
  cbn zeta.
  pose proof (custom_event_attributes
                (event_custom {["label" := VString "demo"; "count" := VInt 3;
                                "zone" := VString "a"]})
                world0 eq_refl) as (Hnil & (new & rest & Hout & _ & _ & Hmem) & Hany).
  assert (Hnew : emitted (ProcessTrackingEvent
                            (event_custom {["label" := VString "demo"; "count" := VInt 3;
                                            "zone" := VString "a"]})) world0 = new).
  { unfold emitted. rewrite Hout. apply drop_app_length. }
  assert (Hl : map_to_list (Custom (event_custom
                 {["label" := VString "demo"; "count" := VInt 3; "zone" := VString "a"]})) =
               [("count", VInt 3); ("zone", VString "a"); ("label", VString "demo")]).
  { vm_compute. reflexivity. }
  rewrite Hnew. split_and!.
  - exact Hnil.
  - apply Hmem. right; right. exists "label", "demo". split; [|done].
    vm_compute. reflexivity.
  - apply Hmem. right; right. exists "zone", "a". split; [|done].
    vm_compute. reflexivity.
  - apply (Hany _ world0). rewrite Hl. solve_Permutation.
  - apply (Hany _ world0). rewrite Hl. solve_Permutation.
Defined.

(** A custom map with a string, a number and a boolean: only the string
    becomes an attribute. *)
Example custom_event_sample :
  span_attributes "custom_event"
    (output (exec (recordCustomEvent
                     (event_custom {["label" := VString "demo";
                                     "count" := VNumber (float64_of_Z 3);
                                     "flag" := VBool true]})) world0)) =
    [("custom.element_id", VString "generate-event");
     ("custom.session_id", VString "s1");
     ("custom.label", VString "demo")].
Proof. vm_compute. reflexivity. Qed.

(** ** The click rate *)

(** *** Mantissas and shifts *)

Lemma digits2_pos_size (p : positive) : digits2_pos p = Pos.size p.
Proof. induction p; cbn; congruence. Qed.

Lemma digits2_pos_lower (p : positive) : 2 ^ (Z.pos (digits2_pos p) - 1) <= Z.pos p.
Proof.
  rewrite digits2_pos_size.
  pose proof (Pos.size_le p) as H.
  assert (H' : 2 ^ Z.pos (Pos.size p) <= Z.pos p~0).
  { change 2 with (Z.pos 2). rewrite <- Pos2Z.inj_pow. lia. }
  replace (Z.pos (Pos.size p)) with (Z.succ (Z.pos (Pos.size p) - 1)) in H' by lia.
  rewrite Z.pow_succ_r in H' by lia. lia.
Qed.

Lemma digits2_pos_upper (p : positive) : Z.pos p < 2 ^ Z.pos (digits2_pos p).
Proof.
  rewrite digits2_pos_size. pose proof (Pos.size_gt p) as H.
  change 2 with (Z.pos 2). rewrite <- Pos2Z.inj_pow. lia.
Qed.

Lemma shr_1_m (mrs : shr_record) :
  0 <= shr_m mrs → shr_m (shr_1 mrs) = shr_m mrs / 2 ∧ 0 <= shr_m (shr_1 mrs).
Proof.
  destruct mrs as [m r s]. cbn [shr_m]. intros Hm.
  destruct m as [|[p|p|]|p]; cbn [shr_1 shr_m].
  - split; [reflexivity|lia].
  - pose proof (Pos2Z.inj_xI p). split; [|lia].
    apply Z.div_unique with (r := 1); lia.
  - pose proof (Pos2Z.inj_xO p). split; [|lia].
    apply Z.div_unique with (r := 0); lia.
  - split; [reflexivity|lia].
  - lia.
Qed.

Lemma iter_shr_1_m (p : positive) :
  ∀ mrs, 0 <= shr_m mrs →
    shr_m (SpecFloat.iter_pos shr_1 p mrs) = shr_m mrs / 2 ^ Z.pos p ∧
    0 <= shr_m (SpecFloat.iter_pos shr_1 p mrs).
Proof.
  induction p as [p IH|p IH|]; intros mrs Hm; cbn [SpecFloat.iter_pos].
  - destruct (shr_1_m mrs Hm) as [E1 H1].
    destruct (IH _ H1) as [E2 H2]. destruct (IH _ H2) as [E3 H3].
    split; [|exact H3]. rewrite E3, E2, E1.
    rewrite !Z.div_div by lia. f_equal.
    rewrite (Pos2Z.inj_xI p), Z.pow_add_r, Z.pow_mul_r by lia.
    rewrite <- Z.pow_mul_l. rewrite Z.pow_1_r.
    replace (2 ^ 2) with (2 * 2) by reflexivity.
    rewrite Z.pow_mul_l. lia.
  - destruct (IH _ Hm) as [E2 H2]. destruct (IH _ H2) as [E3 H3].
    split; [|exact H3]. rewrite E3, E2.
    rewrite !Z.div_div by lia. f_equal.
    rewrite (Pos2Z.inj_xO p), Z.pow_mul_r by lia.
    replace (2 ^ 2) with (2 * 2) by reflexivity.
    rewrite Z.pow_mul_l. lia.
  - destruct (shr_1_m mrs Hm) as [E1 H1]. split; [|exact H1].
    rewrite E1. reflexivity.
Qed.

Lemma shr_m_of_loc (m : Z) (l : location) : shr_m (shr_record_of_loc m l) = m.
Proof. destruct l as [|[]]; reflexivity. Qed.

Lemma shr_fexp_pos (p : positive) (e : Z) (l : location) :
  f64_emin <= e →
  0 < shr_m (shr_fexp f64_prec f64_emax (Z.pos p) e l).1 ∧
  e <= (shr_fexp f64_prec f64_emax (Z.pos p) e l).2.
Proof.
  intros He. unfold shr_fexp, shr, fexp, Zdigits2.
  change (emin f64_prec f64_emax) with (-1074). change f64_emin with (-1074) in He.
  unfold f64_prec.
  destruct (Z.max (Z.pos (digits2_pos p) + e - 53) (-1074) - e) as [|n|n] eqn:Hn;
    cbn [fst snd]; rewrite ?shr_m_of_loc; try lia.
  assert (Hd : Z.pos (digits2_pos p) = Z.pos n + 53) by lia.
  destruct (iter_shr_1_m n (shr_record_of_loc (Z.pos p) l)) as [E _];
    [rewrite shr_m_of_loc; lia|].
  rewrite E, shr_m_of_loc. split; [|lia].
  apply Z.div_str_pos. split; [lia|].
  pose proof (digits2_pos_lower p) as Hl. rewrite Hd in Hl.
  assert (2 ^ Z.pos n <= 2 ^ (Z.pos n + 53 - 1)); [|lia].
  apply Z.pow_le_mono_r; lia.
Qed.

Lemma round_nearest_even_ge (m : Z) (l : location) : m <= round_nearest_even m l.
Proof. destruct l as [|[]]; cbn; try destruct (Z.even m); lia. Qed.

Lemma binary_round_aux_above_zero (p : positive) (e : Z) (l : location) :
  f64_emin <= e →
  above_zero (binary_round_aux f64_prec f64_emax false (Z.pos p) e l).
Proof.
  intros He. unfold binary_round_aux.
  destruct (shr_fexp_pos p e l He) as [Hm1 He1].
  destruct (shr_fexp f64_prec f64_emax (Z.pos p) e l) as [mrs' e'].
  cbn [fst snd] in Hm1, He1.
  pose proof (round_nearest_even_ge (shr_m mrs') (loc_of_shr_record mrs')) as Hr.
  destruct (round_nearest_even (shr_m mrs') (loc_of_shr_record mrs')) as [|p'|p'];
    try lia.
  destruct (shr_fexp_pos p' e' loc_Exact ltac:(lia)) as [Hm2 He2].
  destruct (shr_fexp f64_prec f64_emax (Z.pos p') e' loc_Exact) as [mrs'' e''].
  cbn [fst snd] in Hm2, He2.
  destruct (shr_m mrs'') as [|m|m]; try lia.
  destruct (e'' <=? f64_emax - f64_prec); cbn; [split; [done|lia]|done].
Qed.

Lemma digits2_pos_iter_xO (d p : positive) :
  Z.pos (digits2_pos (Pos.iter xO p d)) = Z.pos (digits2_pos p) + Z.pos d.
Proof.
  revert p. induction d as [|d IH] using Pos.peano_ind; intros p.
  - cbn. lia.
  - rewrite Pos.iter_succ. cbn [digits2_pos]. rewrite Pos2Z.inj_succ, IH. lia.
Qed.

Lemma binary_round_above_zero (p : positive) (e : Z) :
  f64_emin <= e → above_zero (binary_round f64_prec f64_emax false p e).
Proof.
  intros He. unfold binary_round, shl_align.
  destruct (fexp f64_prec f64_emax (Z.pos (digits2_pos p) + e) - e) eqn:Hd;
    apply binary_round_aux_above_zero; try exact He.
  unfold fexp. change (emin f64_prec f64_emax) with f64_emin.
  apply Z.le_max_r.
Qed.

Lemma float64_of_Z_above_zero (n : Z) : 0 < n → above_zero (float64_of_Z n).
Proof.
  intros Hn. destruct n as [|p|p]; try lia.
  apply binary_round_above_zero. change f64_emin with (-1074). lia.
Qed.

Lemma binary_round_aux_exact (m : positive) (e : Z) :
  digits2_pos m = 53%positive → -52 <= e <= 0 →
  binary_round_aux f64_prec f64_emax false (Z.pos m) e loc_Exact =
    S754_finite false m e.
Proof.
  intros Hd He. unfold binary_round_aux, shr_fexp, shr, fexp, Zdigits2.
  rewrite Hd. change (emin f64_prec f64_emax) with (-1074). unfold f64_prec, f64_emax.
  replace (Z.max (53 + e - 53) (-1074) - e) with 0 by lia.
  cbn [shr_record_of_loc shr_m loc_of_shr_record round_nearest_even].
  rewrite Hd.
  replace (Z.max (53 + e - 53) (-1074) - e) with 0 by lia.
  cbn [shr_record_of_loc shr_m].
  replace (e <=? 1024 - 53) with true; [done|].
  symmetry. apply Z.leb_le. lia.
Qed.

Lemma float64_of_Z_normal53 (n : Z) : 0 < n < 2 ^ 53 → normal53 (float64_of_Z n).
Proof.
  intros [Hpos Hlt]. destruct n as [|p|p]; try lia.
  unfold float64_of_Z, binary_normalize, binary_round, shl_align, fexp.
  change (emin f64_prec f64_emax) with (-1074).
  pose proof (digits2_pos_lower p) as Hl.
  assert (HD : Z.pos (digits2_pos p) <= 53).
  { destruct (decide (Z.pos (digits2_pos p) <= 53)) as [|Hgt]; [done|].
    assert (2 ^ 53 <= 2 ^ (Z.pos (digits2_pos p) - 1)) by (apply Z.pow_le_mono_r; lia).
    lia. }
  replace (Z.max (Z.pos (digits2_pos p) + 0 - f64_prec) (-1074))
    with (Z.pos (digits2_pos p) - 53) by (unfold f64_prec; lia).
  rewrite Z.sub_0_r.
  destruct (Z.pos (digits2_pos p) - 53) as [|d|d] eqn:Hd; try lia.
  - exists p, 0. split; [apply binary_round_aux_exact; lia|].
    split; lia.
  - assert (Hdig : digits2_pos (Pos.iter xO p d) = 53%positive).
    { pose proof (digits2_pos_iter_xO d p). lia. }
    exists (Pos.iter xO p d), (Z.neg d).
    split; [apply binary_round_aux_exact; [done|lia]|].
    split; [done|lia].
Qed.

Lemma f64_div_above_zero (x y : float64) :
  normal53 x → normal53 y → above_zero (f64_div x y).
Proof.
  intros (mx & ex & -> & Hdx & Hex) (my & ey & -> & Hdy & Hey).
  unfold f64_div, SFdiv, SFdiv_core_binary, Zdigits2, fexp.
  rewrite Hdx, Hdy. change (emin f64_prec f64_emax) with (-1074).
  change f64_prec with 53.
  replace (Z.min (Z.max (53 + ex - (53 + ey) - 53) (-1074)) (ex - ey))
    with (ex - ey - 53) by lia.
  replace (ex - ey - (ex - ey - 53)) with 53 by lia.
  change IntDef.Z.div_eucl with Z.div_eucl.
  pose proof (Z_div_mod (Z.shiftl (Z.pos mx) 53) (Z.pos my) ltac:(lia)) as Hdm.
  destruct (Z.div_eucl (Z.shiftl (Z.pos mx) 53) (Z.pos my)) as [q r].
  destruct Hdm as [Hq Hr].
  rewrite Z.shiftl_mul_pow2 in Hq by lia.
  pose proof (digits2_pos_lower mx) as Hlx. rewrite Hdx in Hlx.
  pose proof (digits2_pos_upper my) as Hly. rewrite Hdy in Hly.
  assert (Hqpos : 0 < q).
  { destruct (decide (0 < q)) as [|Hn]; [done|]. exfalso.
    assert (Z.pos my * q <= 0) by nia.
    assert (2 ^ 53 <= Z.pos mx * 2 ^ 53) by nia.
    lia. }
  destruct q as [|q|q]; try lia.
  cbn [xorb]. apply (binary_round_aux_above_zero q (ex - ey - 53)).
  change f64_emin with (-1074). lia.
Qed.

Lemma f64_add_zero_l (s : bool) (y : float64) :
  above_zero y → f64_add (S754_zero s) y = y.
Proof. destruct y; cbn; done. Qed.

Lemma f64_add_zero_r (x : float64) (s : bool) :
  above_zero x → f64_add x (S754_zero s) = x.
Proof. destruct x; cbn; done. Qed.

Lemma f64_add_above_zero (x y : float64) :
  above_zero x → above_zero y → above_zero (f64_add x y).
Proof.
  destruct x as [sx|sx| |sx mx ex], y as [sy|sy| |sy my ey]; cbn; try done.
  - destruct sx, sy; done.
  - intros [-> Hex] [-> Hey]. cbn [cond_Zopp].
    unfold binary_normalize. cbn [Z.add].
    apply binary_round_above_zero. lia.
Qed.

Lemma above_zero_eqb (f : float64) : above_zero f → f64_eqb f f64_zero = false.
Proof. destruct f as [s|s| |s m e]; try destruct s; cbn; done. Qed.

Lemma Minutes_above_zero (d : Duration) :
  0 < d <= max_int64 → above_zero (Minutes d).
Proof.
  intros [Hpos Hmax]. unfold Minutes, go_div, go_rem.
  change Minute with 60000000000. unfold max_int64 in Hmax.
  rewrite Z.quot_div_nonneg, Z.rem_mod_nonneg by lia.
  pose proof (Z.div_mod d 60000000000 ltac:(lia)) as Hdm.
  pose proof (Z.mod_pos_bound d 60000000000 ltac:(lia)) as Hr.
  assert (Hq : 0 <= d / 60000000000) by (apply Z.div_pos; lia).
  rewrite wrap64_small by (unfold in_int64, min_int64, max_int64; lia).
  assert (Hc : normal53 (float64_of_Z 60000000000)).
  { apply float64_of_Z_normal53. split; [lia|]. by vm_compute. }
  destruct (decide (d `mod` 60000000000 = 0)) as [Hr0|Hr0].
  - rewrite Hr0. destruct Hc as (mc & ec & -> & _).
    change (f64_div (float64_of_Z 0) (S754_finite false mc ec)) with (S754_zero false).
    assert (Hx : above_zero (float64_of_Z (d / 60000000000)))
      by (apply float64_of_Z_above_zero; lia).
    by rewrite f64_add_zero_r.
  - assert (Hy : above_zero (f64_div (float64_of_Z (d `mod` 60000000000))
                                     (float64_of_Z 60000000000))).
    { apply f64_div_above_zero; [|exact Hc].
      apply float64_of_Z_normal53. split; [lia|].
      assert (60000000000 < 2 ^ 53) by (by vm_compute). lia. }
    destruct (decide (d / 60000000000 = 0)) as [Hq0|Hq0].
    + rewrite Hq0. change (float64_of_Z 0) with (S754_zero false).
      by rewrite f64_add_zero_l.
    + apply f64_add_above_zero; [|exact Hy].
      apply float64_of_Z_above_zero. lia.
Qed.

(** A whole number of minutes is converted without rounding the sum. *)
Lemma Minutes_whole (k : Z) :
  0 < k → k * Minute <= max_int64 → Minutes (k * Minute) = float64_of_Z k.
Proof.
  intros Hk Hmax. unfold Minutes, go_div, go_rem.
  change Minute with 60000000000 in *. unfold max_int64 in Hmax.
  rewrite Z.quot_div_nonneg, Z.rem_mod_nonneg by lia.
  rewrite Z.div_mul, Z.mod_mul by lia.
  rewrite wrap64_small by (unfold in_int64, min_int64, max_int64; lia).
  change (f64_div (float64_of_Z 0) (float64_of_Z 60000000000)) with (S754_zero false).
  apply f64_add_zero_r. apply float64_of_Z_above_zero. lia.
Qed.

(** C5: [GetClickRate] returns 0 for the zero duration, without an error
    and without touching the world; for every duration above zero it
    returns the click counter, converted to [float64], divided by
    [duration.Minutes()]. *)
Theorem GetClickRate_rate (duration : Duration) (w : World) :
  0 < duration <= max_int64 →
  eval (GetClickRate 0) w = f64_zero ∧
  exec (GetClickRate 0) w = w ∧
  eval (GetClickRate duration) w =
    f64_div (float64_of_Z (clickCounter (svc w))) (Minutes duration).
Proof.
  intros Hd. split_and!.
  - reflexivity.
  - apply GetClickRate_exec.
  - unfold GetClickRate. run.
    rewrite (above_zero_eqb _ (Minutes_above_zero duration Hd)). reflexivity.
Qed.

Lemma GetClickRate_rate_witness :
  eval (GetClickRate (2 * Minute)) (mkWorld (mkService 0 6 0 0 ∅) ticking 1 []) =
    float64_of_Z 3.
Proof.
  destruct (GetClickRate_rate (2 * Minute)
              (mkWorld (mkService 0 6 0 0 ∅) ticking 1 [])) as (_ & _ & Hrate).
  - vm_compute. split; [reflexivity | discriminate].
  - rewrite Hrate. vm_compute. reflexivity.
Defined.

(** * Further properties of the service *)

(** ** The metric samples of each event type *)

Lemma emitted_app {A} (m : M A) (w : World) (new : list Effect) :
  output (exec m w) = output w ++ new → emitted m w = new.
Proof. intros H. unfold emitted. rewrite H. apply drop_app_length. Qed.

Lemma dispatch_output (event : TrackingEvent) (s : Service) (c : nat → Time)
    (n : nat) (out : list Effect) :
  output (exec (dispatch event) (mkWorld s c n out)) =
    out ++ emitted (dispatch event) (mkWorld s c n []).
Proof.
  unfold emitted, dispatch.
  repeat case_decide;
    unfold recordClick, recordCursorPosition, recordScrollEvent;
    rewrite ?recordCustomEvent_exec; run; cbn [length drop app output];
    rewrite <- ?app_assoc; reflexivity.
Qed.

Lemma ProcessTrackingEvent_output (event : TrackingEvent) (w : World) :
  output (exec (ProcessTrackingEvent event) w) =
    output w ++
    [SpanStart "process_tracking_event";
     SpanSetAttributes "process_tracking_event"
       [("event.type", VString (EventType event));
        ("session.id", VString (SessionID event));
        ("cursor.x", VInt (CursorX event));
        ("cursor.y", VInt (CursorY event))]] ++
    emitted (dispatch event) (mkWorld (svc (exec (updateSession event) w))
                                      (clock w) (reads w) []) ++
    [Slog LevelInfo "Event processed"
       [("event_type", VString (EventType event));
        ("session_id", VString (SessionID event));
        ("element_id", VString (ElementID event));
        ("timestamp", VTime (Timestamp event))];
     SpanEnd "process_tracking_event"].
Proof.
  rewrite ProcessTrackingEvent_unfold. run.
  destruct (updateSession_frame event w) as (s' & n & Hframe).
  rewrite Hframe, dispatch_output.
  assert (Hs : svc (exec (updateSession event) w) = s').
  { specialize (Hframe (output w)). destruct w. cbn in *. by rewrite Hframe. }
  rewrite Hs. rewrite <- !app_assoc. cbn [app].
  f_equal. f_equal. f_equal.
  unfold emitted, dispatch.
  repeat case_decide;
    unfold recordClick, recordCursorPosition, recordScrollEvent;
    rewrite ?recordCustomEvent_exec; run; reflexivity.
Qed.

(** X1: processing a click increments the click counter once and writes
    exactly three metric samples, in this order: one count on the click
    instrument labelled with element id, element type and page URL, and
    the two cursor coordinates on the histogram, labelled "x" and "y" with
    event type "click". *)
Theorem click_event_metrics (event : TrackingEvent) (w : World) :
  EventType event = "click" →
  clickCounter (svc (exec (ProcessTrackingEvent event) w)) =
    incr64 (clickCounter (svc w)) ∧
  metrics (emitted (ProcessTrackingEvent event) w) =
    [CounterAdd clickRate 1
       [("element_id", VString (ElementID event));
        ("element_type", VString (ElementType event));
        ("page_url", VString (PageURL event))];
     HistogramRecord cursorPositions (CursorX event)
       [("coordinate", VString "x"); ("event_type", VString "click")];
     HistogramRecord cursorPositions (CursorY event)
       [("coordinate", VString "y"); ("event_type", VString "click")]].
Proof.
  intros Hty. split.
  - rewrite ProcessTrackingEvent_svc. cbn zeta.
    destruct (decide (EventType event = "click")) as [_|?]; [|done].
    cbn. by rewrite updateSession_clickCounter.
  - rewrite (emitted_app _ _ _ (ProcessTrackingEvent_output event w)).
    unfold emitted, dispatch.
    destruct (decide (EventType event = "click")) as [_|?]; [|done].
    unfold recordClick. run. reflexivity.
Qed.

Lemma click_event_metrics_witness :
  clickCounter (svc (exec (ProcessTrackingEvent (event0 "click" "s1")) world0)) = 1.
Proof.
  exact (proj1 (click_event_metrics (event0 "click" "s1") world0 eq_refl)).
Defined.

(** X2: processing a "mousemove" or a "scroll" event writes exactly two
    metric samples, both on the cursor histogram: the cursor coordinates
    labelled "x" and "y" for a move, the scroll offsets labelled
    "scroll_x" and "scroll_y" for a scroll; the click counter and the
    page-view counter keep their values. *)
Theorem move_and_scroll_metrics (event : TrackingEvent) (w : World) :
  EventType event = "mousemove" ∨ EventType event = "scroll" →
  let w' := exec (ProcessTrackingEvent event) w in
  clickCounter (svc w') = clickCounter (svc w) ∧
  pageViews (svc w') = pageViews (svc w) ∧
  metrics (emitted (ProcessTrackingEvent event) w) =
    if decide (EventType event = "mousemove") then
      [HistogramRecord cursorPositions (CursorX event)
         [("coordinate", VString "x"); ("event_type", VString "mousemove")];
       HistogramRecord cursorPositions (CursorY event)
         [("coordinate", VString "y"); ("event_type", VString "mousemove")]]
    else
      [HistogramRecord cursorPositions (ScrollX event)
         [("coordinate", VString "scroll_x"); ("event_type", VString "scroll")];
       HistogramRecord cursorPositions (ScrollY event)
         [("coordinate", VString "scroll_y"); ("event_type", VString "scroll")]].
Proof.
  intros Hty. cbn zeta.
  assert (Hnc : EventType event ≠ "click") by (destruct Hty as [-> | ->]; discriminate).
  rewrite ProcessTrackingEvent_svc. cbn zeta.
  destruct (decide (EventType event = "click")) as [?|_]; [done|].
  split_and!.
  - apply updateSession_clickCounter.
  - apply updateSession_pageViews.
  - rewrite (emitted_app _ _ _ (ProcessTrackingEvent_output event w)).
    unfold emitted, dispatch.
    destruct (decide (EventType event = "click")) as [?|_]; [done|].
    destruct (decide (EventType event = "mousemove")) as [Hm|Hm].
    + unfold recordCursorPosition. run. reflexivity.
    + destruct Hty as [?|Hs]; [done|].
      destruct (decide (EventType event = "scroll")) as [_|?]; [|done].
      unfold recordScrollEvent. run. reflexivity.
Qed.

Lemma move_and_scroll_metrics_witness :
  clickCounter (svc (exec (ProcessTrackingEvent (event0 "scroll" "s1")) world0)) = 0.
Proof.
  exact (proj1 (move_and_scroll_metrics (event0 "scroll" "s1") world0
                  (or_intror eq_refl))).
Defined.

Lemma metrics_custom_effects (l : list (string * Any)) :
  metrics (concat (custom_effects <$> l)) = [].
Proof.
  induction l as [|[k v] l IH]; [done|].
  cbn [fmap list_fmap concat]. unfold metrics in *.
  rewrite filter_app, IH, app_nil_r.
  unfold custom_effects. cbn. by destruct v.
Qed.

(** X3: processing an event of type "custom" writes no metric sample,
    whatever the custom map holds, and leaves the click counter and the
    page-view counter as they were. *)
Theorem custom_event_no_metrics (event : TrackingEvent) (w : World) :
  EventType event = "custom" →
  let w' := exec (ProcessTrackingEvent event) w in
  clickCounter (svc w') = clickCounter (svc w) ∧
  pageViews (svc w') = pageViews (svc w) ∧
  metrics (emitted (ProcessTrackingEvent event) w) = [].
Proof.
  intros Hty. cbn zeta. rewrite ProcessTrackingEvent_svc. cbn zeta.
  destruct (decide (EventType event = "click")) as [Hc|_];
    [rewrite Hty in Hc; discriminate|].
  split_and!.
  - apply updateSession_clickCounter.
  - apply updateSession_pageViews.
  - rewrite (emitted_app _ _ _ (ProcessTrackingEvent_custom_output event w Hty)).
    unfold metrics. rewrite !filter_app, !filter_cons, !filter_nil.
    pose proof (metrics_custom_effects (map_to_list (Custom event))) as Hm.
    unfold metrics in Hm. rewrite Hm. reflexivity.
Qed.

Lemma custom_event_no_metrics_witness :
  metrics (emitted (ProcessTrackingEvent
                      (event_custom {["label" := VString "demo"]})) world0) = [].
Proof.
  exact (proj2 (proj2 (custom_event_no_metrics
                         (event_custom {["label" := VString "demo"]}) world0 eq_refl))).
Defined.

(** ** Worlds before and after a call *)

Lemma updateSession_clock (event : TrackingEvent) (w : World) :
  clock (exec (updateSession event) w) = clock w.
Proof.
  destruct (sessions (svc w) !! SessionID event) as [d|] eqn:Hd.
  - by rewrite (updateSession_existing _ _ _ Hd).
  - by rewrite (updateSession_fresh _ _ Hd).
Qed.

Lemma updateSession_reads (event : TrackingEvent) (w : World) :
  reads (exec (updateSession event) w) =
    match sessions (svc w) !! SessionID event with
    | Some _ => S (reads w)
    | None => S (S (S (reads w)))
    end.
Proof.
  destruct (sessions (svc w) !! SessionID event) as [d|] eqn:Hd.
  - by rewrite (updateSession_existing _ _ _ Hd).
  - by rewrite (updateSession_fresh _ _ Hd).
Qed.

(** The service after [updateSession] does not depend on the output. *)
Lemma updateSession_at_reads (event : TrackingEvent) (w : World) (out : list Effect) :
  svc (exec (updateSession event) (at_reads (reads w) out w)) =
    svc (exec (updateSession event) w).
Proof.
  unfold at_reads.
  destruct (sessions (svc w) !! SessionID event) as [d|] eqn:Hd.
  - rewrite (updateSession_existing event w d Hd).
    by rewrite (updateSession_existing event (mkWorld _ _ _ out) d Hd).
  - rewrite (updateSession_fresh event w Hd).
    by rewrite (updateSession_fresh event (mkWorld _ _ _ out) Hd).
Qed.

Lemma ProcessTrackingEvent_clock (event : TrackingEvent) (w : World) :
  clock (exec (ProcessTrackingEvent event) w) = clock w.
Proof.
  rewrite ProcessTrackingEvent_unfold. run.
  destruct (updateSession_frame event w) as (s' & n & Hframe).
  rewrite Hframe. unfold dispatch.
  repeat case_decide;
    unfold recordClick, recordCursorPosition, recordScrollEvent;
    rewrite ?recordCustomEvent_exec; run; reflexivity.
Qed.

Lemma ProcessTrackingEvent_reads (event : TrackingEvent) (w : World) :
  reads (exec (ProcessTrackingEvent event) w) =
    match sessions (svc w) !! SessionID event with
    | Some _ => S (reads w)
    | None => S (S (S (reads w)))
    end.
Proof.
  rewrite <- updateSession_reads.
  rewrite ProcessTrackingEvent_unfold. run.
  destruct (updateSession_frame event w) as (s' & n & Hframe).
  rewrite Hframe.
  assert (Hn : reads (exec (updateSession event) w) = n).
  { specialize (Hframe (output w)). destruct w. cbn in *. by rewrite Hframe. }
  rewrite Hn. unfold dispatch.
  repeat case_decide;
    unfold recordClick, recordCursorPosition, recordScrollEvent;
    rewrite ?recordCustomEvent_exec; run; reflexivity.
Qed.

Lemma ProcessTrackingEvent_at_reads (event : TrackingEvent) (w : World)
    (out : list Effect) :
  svc (exec (ProcessTrackingEvent event) (at_reads (reads w) out w)) =
    svc (exec (ProcessTrackingEvent event) w).
Proof.
  rewrite !ProcessTrackingEvent_svc. cbn zeta.
  by rewrite updateSession_at_reads.
Qed.

(** ** The two ways through [TrackEvent] *)

Lemma prepare_EventType (r : Request) (t : Time) (event : TrackingEvent) :
  EventType (prepare r t event) = EventType event.
Proof. unfold prepare. destruct (IsZero _); cbn; case_decide; reflexivity. Qed.

Lemma prepare_SessionID (r : Request) (t : Time) (event : TrackingEvent) :
  SessionID (prepare r t event) = SessionID event.
Proof. unfold prepare. destruct (IsZero _); cbn; case_decide; reflexivity. Qed.

Lemma TrackEvent_rejected (r : Request) (w : World) :
  accepted r = None →
  svc (exec (TrackEvent r) w) = svc w ∧
  clock (exec (TrackEvent r) w) = clock w ∧
  reads (exec (TrackEvent r) w) = reads w ∧
  metrics (emitted (TrackEvent r) w) = [] ∧
  ∃ msg code, eval (TrackEvent r) w = HttpError msg code ∧
              (code = StatusMethodNotAllowed ∨ code = StatusBadRequest).
Proof.
  unfold accepted, TrackEvent, finish, emitted, metrics.
  destruct (decide (Method r ≠ MethodPost)).
  { intros _. run. split_and!; try done.
    - rewrite <- !app_assoc, drop_app_length. reflexivity.
    - eauto. }
  destruct (Decoded r) as [err|event].
  { intros _. run. split_and!; try done.
    - rewrite <- !app_assoc, drop_app_length. reflexivity.
    - eauto. }
  destruct (decide (EventType event = "")); [|done].
  intros _. run. split_and!; try done.
  - rewrite <- !app_assoc, drop_app_length. reflexivity.
  - eauto.
Qed.

(** An accepted event is processed by the service as [prepare] leaves it,
    after the reading of the clock that fills a zero timestamp. *)
Lemma TrackEvent_accepted (r : Request) (event : TrackingEvent) (w : World) :
  accepted r = Some event →
  let n0 := if IsZero (Timestamp event) then S (reads w) else reads w in
  let w0 := at_reads n0 (output w) w in
  let w1 := exec (ProcessTrackingEvent (prepare r (clock w (reads w)) event)) w0 in
  svc (exec (TrackEvent r) w) = svc w1 ∧
  clock (exec (TrackEvent r) w) = clock w ∧
  reads (exec (TrackEvent r) w) = S (reads w1) ∧
  ∃ now, eval (TrackEvent r) w =
           HttpJSON [("status", VString "success");
                     ("timestamp", VTime now);
                     ("event_id", VString (SessionID event +:+ "_" +:+ EventType event))].
Proof.
  unfold accepted.
  destruct (decide (Method r ≠ MethodPost)); [done|].
  destruct (Decoded r) as [err|event'] eqn:Hdec; [done|].
  destruct (decide (EventType event' = "")); [done|].
  intros [= ->]. cbn zeta.
  unfold TrackEvent, finish. rewrite Hdec.
  destruct (decide (Method r ≠ MethodPost)); [done|].
  destruct (decide (EventType event = "")); [done|].
  unfold prepare, at_reads.
  destruct (IsZero (Timestamp event));
    destruct (decide (PageURL event = "")) as [Hurl|Hurl];
    run; cbn [PageURL set_UserAgent set_Timestamp];
    repeat (case_decide; try done);
    run; rewrite !ProcessTrackingEvent_nil; run;
    destruct (EncodeErr r); run;
    rewrite ?ProcessTrackingEvent_clock;
    (split_and!; [| reflexivity | | eexists; reflexivity]).
  all: try (rewrite !ProcessTrackingEvent_reads; reflexivity).
  all: match goal with
       | |- svc (exec ?m (mkWorld ?s ?c ?n ?out)) = svc (exec ?m (mkWorld ?s ?c ?n ?out')) =>
           change (mkWorld s c n out) with (at_reads (reads (mkWorld s c n out')) out
                                              (mkWorld s c n out'));
           apply ProcessTrackingEvent_at_reads
       end.
Qed.

(** ** One operation and the counters *)

Lemma is_click_prepare (r : Request) (t : Time) (event : TrackingEvent) :
  is_click (prepare r t event) = is_click event.
Proof. unfold is_click. by rewrite prepare_EventType. Qed.

Lemma ProcessTrackingEvent_clickCounter (event : TrackingEvent) (w : World) :
  clickCounter (svc (exec (ProcessTrackingEvent event) w)) =
    if is_click event then incr64 (clickCounter (svc w)) else clickCounter (svc w).
Proof.
  rewrite ProcessTrackingEvent_svc. cbn zeta. unfold is_click.
  case_decide.
  - rewrite bool_decide_eq_true_2 by done. cbn. by rewrite updateSession_clickCounter.
  - rewrite bool_decide_eq_false_2 by done. apply updateSession_clickCounter.
Qed.

Lemma ProcessTrackingEvent_pageViews (event : TrackingEvent) (w : World) :
  pageViews (svc (exec (ProcessTrackingEvent event) w)) = pageViews (svc w).
Proof.
  rewrite ProcessTrackingEvent_svc. cbn zeta.
  case_decide; cbn; apply updateSession_pageViews.
Qed.

Lemma ProcessTrackingEvent_sessionCounter (event : TrackingEvent) (w : World) :
  sessionCounter (svc (exec (ProcessTrackingEvent event) w)) =
    match sessions (svc w) !! SessionID event with
    | Some _ => sessionCounter (svc w)
    | None => incr64 (sessionCounter (svc w))
    end.
Proof.
  rewrite ProcessTrackingEvent_svc. cbn zeta.
  case_decide; cbn; apply updateSession_sessionCounter.
Qed.

Lemma ProcessTrackingEvent_sessions (event : TrackingEvent) (w : World) :
  sessions (svc (exec (ProcessTrackingEvent event) w)) =
    sessions (svc (exec (updateSession event) w)).
Proof. rewrite ProcessTrackingEvent_svc. cbn zeta. by case_decide. Qed.

Lemma updateSession_dom (event : TrackingEvent) (w : World) :
  dom (sessions (svc (exec (updateSession event) w))) =
    {[SessionID event]} ∪ dom (sessions (svc w)).
Proof.
  destruct (sessions (svc w) !! SessionID event) as [d|] eqn:Hd.
  - rewrite (updateSession_existing _ _ _ Hd). cbn. by rewrite dom_insert_L.
  - rewrite (updateSession_fresh _ _ Hd). cbn. by rewrite dom_insert_L.
Qed.

Lemma step_clickCounter (op : Op) (w : World) :
  clickCounter (svc (step op w)) =
    if op_is_click op then incr64 (clickCounter (svc w)) else clickCounter (svc w).
Proof.
  destruct op as [r|event| |maxAge|fmt|duration]; cbn [step]; unfold op_is_click;
    cbn [op_event].
  - destruct (accepted r) as [event|] eqn:Hacc.
    + destruct (TrackEvent_accepted r event w Hacc) as (-> & _).
      rewrite ProcessTrackingEvent_clickCounter, is_click_prepare. reflexivity.
    + by destruct (TrackEvent_rejected r w Hacc) as (-> & _).
  - apply ProcessTrackingEvent_clickCounter.
  - by rewrite TrackPageView_svc.
  - by rewrite CleanupOldSessions_exec.
  - by rewrite GetHealthMetrics_svc.
  - by rewrite GetClickRate_exec.
Qed.

Lemma step_pageViews (op : Op) (w : World) :
  pageViews (svc (step op w)) =
    if op_is_page_view op then incr64 (pageViews (svc w)) else pageViews (svc w).
Proof.
  destruct op as [r|event| |maxAge|fmt|duration]; cbn [step op_is_page_view].
  - destruct (accepted r) as [event|] eqn:Hacc.
    + destruct (TrackEvent_accepted r event w Hacc) as (-> & _).
      by rewrite ProcessTrackingEvent_pageViews.
    + by destruct (TrackEvent_rejected r w Hacc) as (-> & _).
  - apply ProcessTrackingEvent_pageViews.
  - by rewrite TrackPageView_svc.
  - by rewrite CleanupOldSessions_exec.
  - by rewrite GetHealthMetrics_svc.
  - by rewrite GetClickRate_exec.
Qed.

(** Without an eviction the stored ids grow by the id of the event. *)
Lemma step_dom (op : Op) (w : World) :
  op_is_cleanup op = false →
  dom (sessions (svc (step op w))) =
    match op_event op with
    | Some event => {[SessionID event]} ∪ dom (sessions (svc w))
    | None => dom (sessions (svc w))
    end.
Proof.
  destruct op as [r|event| |maxAge|fmt|duration]; cbn [step op_is_cleanup op_event];
    intros Hc; try discriminate Hc.
  - destruct (accepted r) as [event|] eqn:Hacc.
    + destruct (TrackEvent_accepted r event w Hacc) as (-> & _).
      rewrite ProcessTrackingEvent_sessions, updateSession_dom, prepare_SessionID.
      reflexivity.
    + by destruct (TrackEvent_rejected r w Hacc) as (-> & _).
  - by rewrite ProcessTrackingEvent_sessions, updateSession_dom.
  - by rewrite TrackPageView_svc.
  - by rewrite GetHealthMetrics_svc.
  - by rewrite GetClickRate_exec.
Qed.

Lemma step_sessionCounter (op : Op) (w : World) :
  sessionCounter (svc (step op w)) =
    match op_event op with
    | Some event =>
        if decide (SessionID event ∈ dom (sessions (svc w)))
        then sessionCounter (svc w) else incr64 (sessionCounter (svc w))
    | None => sessionCounter (svc w)
    end.
Proof.
  assert (Hpte : ∀ event w,
    sessionCounter (svc (exec (ProcessTrackingEvent event) w)) =
      if decide (SessionID event ∈ dom (sessions (svc w)))
      then sessionCounter (svc w) else incr64 (sessionCounter (svc w))).
  { intros event w0. rewrite ProcessTrackingEvent_sessionCounter.
    destruct (sessions (svc w0) !! SessionID event) as [d|] eqn:Hd.
    - rewrite decide_True; [done|]. apply elem_of_dom. eauto.
    - rewrite decide_False; [done|]. by apply not_elem_of_dom. }
  destruct op as [r|event| |maxAge|fmt|duration]; cbn [step op_event].
  - destruct (accepted r) as [event|] eqn:Hacc.
    + destruct (TrackEvent_accepted r event w Hacc) as (-> & _).
      rewrite Hpte, prepare_SessionID. reflexivity.
    + by destruct (TrackEvent_rejected r w Hacc) as (-> & _).
  - apply Hpte.
  - by rewrite TrackPageView_svc.
  - by rewrite CleanupOldSessions_exec.
  - by rewrite GetHealthMetrics_svc.
  - by rewrite GetClickRate_exec.
Qed.

(** ** Stored sessions and the session counter *)

Lemma updateSession_size (event : TrackingEvent) (w : World) :
  let w' := exec (updateSession event) w in
  (size (sessions (svc w')) = size (sessions (svc w)) ∧
   sessionCounter (svc w') = sessionCounter (svc w)) ∨
  (size (sessions (svc w')) = S (size (sessions (svc w))) ∧
   sessionCounter (svc w') = incr64 (sessionCounter (svc w))).
Proof.
  cbn zeta. destruct (sessions (svc w) !! SessionID event) as [d|] eqn:Hd.
  - left. rewrite (updateSession_existing _ _ _ Hd). cbn.
    split; [|done]. by apply map_size_insert_Some.
  - right. rewrite (updateSession_fresh _ _ Hd). cbn.
    split; [|done]. by apply map_size_insert_None.
Qed.

Lemma ProcessTrackingEvent_size (event : TrackingEvent) (w : World) :
  let w' := exec (ProcessTrackingEvent event) w in
  (size (sessions (svc w')) = size (sessions (svc w)) ∧
   sessionCounter (svc w') = sessionCounter (svc w)) ∨
  (size (sessions (svc w')) = S (size (sessions (svc w))) ∧
   sessionCounter (svc w') = incr64 (sessionCounter (svc w))).
Proof.
  cbn zeta. rewrite ProcessTrackingEvent_svc. cbn zeta.
  pose proof (updateSession_size event w) as H. cbn zeta in H.
  case_decide; exact H.
Qed.

Lemma CleanupOldSessions_subseteq (maxAge : Duration) (w : World) :
  sessions (svc (exec (CleanupOldSessions maxAge) w)) ⊆ sessions (svc w).
Proof.
  apply map_subseteq_spec. intros sid d. rewrite CleanupOldSessions_lookup.
  destruct (sessions (svc w) !! sid) as [d0|]; [|done].
  by case_bool_decide.
Qed.

(** One operation: the number of stored sessions does not grow and the
    session counter stays, or both grow by one. *)
Lemma step_size (op : Op) (w : World) :
  ((size (sessions (svc (step op w))) ≤ size (sessions (svc w)))%nat ∧
   (op_is_cleanup op = false →
    size (sessions (svc (step op w))) = size (sessions (svc w))) ∧
   sessionCounter (svc (step op w)) = sessionCounter (svc w)) ∨
  (size (sessions (svc (step op w))) = S (size (sessions (svc w))) ∧
   sessionCounter (svc (step op w)) = incr64 (sessionCounter (svc w))).
Proof.
  destruct op as [r|event| |maxAge|fmt|duration]; cbn [step op_is_cleanup].
  - destruct (accepted r) as [event|] eqn:Hacc.
    + destruct (TrackEvent_accepted r event w Hacc) as (-> & _).
      destruct (ProcessTrackingEvent_size
                  (prepare r (clock w (reads w)) event)
                  (at_reads (if IsZero (Timestamp event) then S (reads w) else reads w)
                            (output w) w)) as [[Hs Hc]|[Hs Hc]].
      * left. cbn in Hs, Hc. rewrite Hs, Hc. done.
      * right. cbn in Hs, Hc. rewrite Hs, Hc. done.
    + destruct (TrackEvent_rejected r w Hacc) as (-> & _). left. done.
  - destruct (ProcessTrackingEvent_size event w) as [[Hs Hc]|[Hs Hc]].
    + left. rewrite Hs, Hc. done.
    + right. rewrite Hs, Hc. done.
  - left. rewrite TrackPageView_svc. done.
  - left. split_and!; [|done|by rewrite CleanupOldSessions_exec].
    apply map_subseteq_size, CleanupOldSessions_subseteq.
  - left. rewrite GetHealthMetrics_svc. done.
  - left. rewrite GetClickRate_exec. done.
Qed.

(** ** Runs of operations *)

Lemma count_cons (f : Op → bool) (op : Op) (ops : list Op) :
  Z.of_nat (length (filter (λ op, f op = true) (op :: ops))) =
    (if f op then 1 else 0) + Z.of_nat (length (filter (λ op, f op = true) ops)).
Proof.
  rewrite filter_cons. destruct (f op); case_decide; try done; cbn [length]; lia.
Qed.

Lemma count_bound (f : Op → bool) (ops : list Op) :
  0 <= Z.of_nat (length (filter (λ op, f op = true) ops)) <= Z.of_nat (length ops).
Proof.
  split; [lia|]. apply Nat2Z.inj_le. apply length_filter.
Qed.

Lemma run_ops_clickCounter (ops : list Op) :
  ∀ (w : World) (c : Z),
    clickCounter (svc w) = wrap64 c →
    clickCounter (svc (run_ops ops w)) = wrap64 (c + clicks_in ops).
Proof.
  induction ops as [|op ops IH]; intros w c Hc.
  - cbn. by rewrite Z.add_0_r.
  - cbn [run_ops foldl]. unfold clicks_in. rewrite count_cons.
    fold (clicks_in ops). fold (run_ops ops (step op w)).
    rewrite (IH _ (c + if op_is_click op then 1 else 0)); [f_equal; lia|].
    rewrite step_clickCounter, Hc. destruct (op_is_click op).
    + apply incr64_wrap64.
    + by rewrite Z.add_0_r.
Qed.

Lemma run_ops_pageViews (ops : list Op) :
  ∀ (w : World) (c : Z),
    pageViews (svc w) = wrap64 c →
    pageViews (svc (run_ops ops w)) = wrap64 (c + page_views_in ops).
Proof.
  induction ops as [|op ops IH]; intros w c Hc.
  - cbn. by rewrite Z.add_0_r.
  - cbn [run_ops foldl]. unfold page_views_in. rewrite count_cons.
    fold (page_views_in ops). fold (run_ops ops (step op w)).
    rewrite (IH _ (c + if op_is_page_view op then 1 else 0)); [f_equal; lia|].
    rewrite step_pageViews, Hc. destruct (op_is_page_view op).
    + apply incr64_wrap64.
    + by rewrite Z.add_0_r.
Qed.

Lemma boot_exec (w : World) :
  exec boot w =
    mkWorld (mkService (clock w (reads w)) 0 0 0 ∅) (clock w) (S (reads w)) (output w).
Proof. unfold boot, New. run. reflexivity. Qed.

Lemma GetHealthMetrics_eval (duration_String : Duration → string) (w : World) :
  eval (GetHealthMetrics duration_String) w =
    mkHealth (duration_String (Sub (clock w (reads w)) (startTime (svc w))))
             (clickCounter (svc w)) (pageViews (svc w))
             (Z.of_nat (size (sessions (svc w)))) (sessionCounter (svc w)).
Proof. unfold GetHealthMetrics, Since. run. reflexivity. Qed.

(** X4: in the health metrics of a service that was created and then ran
    a sequence of operations of any kind, the total of clicks is the
    number of click events that were processed (directly or through an
    accepted request) and the page views are the number of calls of
    [TrackPageView]; evictions and queries in between change neither. *)
Theorem health_counts_operations (duration_String : Duration → string)
    (ops : list Op) (w : World) :
  Z.of_nat (length ops) <= max_int64 →
  let h := eval (GetHealthMetrics duration_String) (run_ops ops (exec boot w)) in
  TotalClicks h = clicks_in ops ∧ PageViews h = page_views_in ops.
Proof.
  intros Hlen. cbn zeta. rewrite GetHealthMetrics_eval. cbn [TotalClicks PageViews].
  rewrite (run_ops_clickCounter ops _ 0), (run_ops_pageViews ops _ 0)
    by (rewrite boot_exec; reflexivity).
  pose proof (count_bound op_is_click ops). pose proof (count_bound op_is_page_view ops).
  unfold clicks_in, page_views_in.
  split; apply wrap64_small; unfold in_int64, min_int64, max_int64 in *; lia.
Qed.

Lemma health_counts_operations_witness :
  TotalClicks (eval (GetHealthMetrics (λ _, ""))
                 (run_ops [OpTrackEvent (request0 "click" "s1"); OpTrackPageView;
                           OpProcessTrackingEvent (event0 "click" "s2");
                           OpCleanupOldSessions 0]
                    (exec boot world0))) = 2.
Proof.
  refine (proj1 (health_counts_operations (λ _, "")
                   [OpTrackEvent (request0 "click" "s1"); OpTrackPageView;
                    OpProcessTrackingEvent (event0 "click" "s2");
                    OpCleanupOldSessions 0] world0 _)).
  vm_compute. discriminate.
Defined.

Lemma run_ops_dom (ops : list Op) :
  ∀ w : World,
    Forall (λ op, op_is_cleanup op = false) ops →
    dom (sessions (svc (run_ops ops w))) = dom (sessions (svc w)) ∪ session_ids_in ops.
Proof.
  induction ops as [|op ops IH]; intros w Hno.
  - cbn. unfold session_ids_in. cbn. by rewrite (right_id_L ∅ (∪)).
  - apply Forall_cons in Hno as [Hop Hno]. cbn [run_ops foldl].
    fold (run_ops ops (step op w)). rewrite (IH _ Hno), (step_dom _ _ Hop).
    unfold session_ids_in. cbn [omap list_omap].
    destruct (op_event op) as [event|]; cbn [fmap option_fmap option_map list_to_set];
      [|reflexivity].
    fold (session_ids_in ops).
    rewrite (comm_L (∪) {[SessionID event]} (dom _)).
    by rewrite (assoc_L (∪)).
Qed.

(** Without an eviction the session counter moves with the number of
    stored sessions. *)
Lemma run_ops_sessionCounter (ops : list Op) :
  ∀ (w : World) (k : Z),
    Forall (λ op, op_is_cleanup op = false) ops →
    sessionCounter (svc w) = wrap64 (k + Z.of_nat (size (sessions (svc w)))) →
    sessionCounter (svc (run_ops ops w)) =
      wrap64 (k + Z.of_nat (size (sessions (svc (run_ops ops w))))).
Proof.
  induction ops as [|op ops IH]; intros w k Hno Hk; [done|].
  apply Forall_cons in Hno as [Hop Hno]. cbn [run_ops foldl].
  fold (run_ops ops (step op w)). apply (IH _ k Hno).
  destruct (step_size op w) as [(_ & Hs & Hc)|[Hs Hc]].
  - by rewrite Hc, (Hs Hop).
  - rewrite Hc, Hs, Hk, incr64_wrap64. f_equal. lia.
Qed.

(** With evictions the stored sessions stay below the session counter,
    which stays below the number of operations. *)
Lemma run_ops_size_le (ops : list Op) :
  ∀ (w : World) (k : Z),
    Z.of_nat (size (sessions (svc w))) <= sessionCounter (svc w) <= k →
    k + Z.of_nat (length ops) <= max_int64 →
    Z.of_nat (size (sessions (svc (run_ops ops w)))) <= sessionCounter (svc (run_ops ops w))
      <= k + Z.of_nat (length ops).
Proof.
  induction ops as [|op ops IH]; intros w k Hk Hmax.
  - cbn. lia.
  - cbn [run_ops foldl length] in *. fold (run_ops ops (step op w)).
    specialize (IH (step op w) (k + 1)).
    replace (k + Z.of_nat (S (length ops))) with (k + 1 + Z.of_nat (length ops)) by lia.
    apply IH; [|lia].
    destruct (step_size op w) as [(Hle & _ & Hc)|[Hs Hc]].
    + rewrite Hc. lia.
    + rewrite Hc, Hs, incr64_no_overflow; unfold in_int64, min_int64; lia.
Qed.

(** X5: when a new service runs operations none of which is an eviction,
    the stored sessions are exactly those of the session ids of the
    processed events, and the health metrics report that number both as
    active users and as total sessions. *)
Theorem health_sessions_without_eviction (duration_String : Duration → string)
    (ops : list Op) (w : World) :
  Forall (λ op, op_is_cleanup op = false) ops →
  Z.of_nat (length ops) <= max_int64 →
  let w' := run_ops ops (exec boot w) in
  let h := eval (GetHealthMetrics duration_String) w' in
  dom (sessions (svc w')) = session_ids_in ops ∧
  ActiveUsers h = Z.of_nat (size (session_ids_in ops)) ∧
  TotalSessions h = Z.of_nat (size (session_ids_in ops)).
Proof.
  intros Hno Hlen. cbn zeta. rewrite GetHealthMetrics_eval.
  cbn [ActiveUsers TotalSessions].
  assert (Hdom : dom (sessions (svc (run_ops ops (exec boot w)))) = session_ids_in ops).
  { rewrite (run_ops_dom _ _ Hno), boot_exec. cbn.
    by rewrite dom_empty_L, (left_id_L ∅ (∪)). }
  assert (Hsize : size (sessions (svc (run_ops ops (exec boot w)))) =
                  size (session_ids_in ops)).
  { by rewrite <- Hdom, size_dom. }
  split_and!; [done|by rewrite Hsize|].
  rewrite (run_ops_sessionCounter ops _ 0 Hno) by (rewrite boot_exec; reflexivity).
  rewrite Hsize, Z.add_0_l. apply wrap64_small.
  pose proof (run_ops_size_le ops (exec boot w) 0) as Hb.
  rewrite Hsize in Hb.
  assert (Hb' : Z.of_nat (size (session_ids_in ops))
                <= sessionCounter (svc (run_ops ops (exec boot w)))
                <= 0 + Z.of_nat (length ops)).
  { apply Hb; [|lia]. rewrite boot_exec. cbn. rewrite map_size_empty. lia. }
  unfold in_int64, min_int64, max_int64 in *. lia.
Qed.

Lemma health_sessions_without_eviction_witness :
  ActiveUsers (eval (GetHealthMetrics (λ _, ""))
                 (run_ops [OpTrackEvent (request0 "click" "s1"); OpTrackPageView;
                           OpProcessTrackingEvent (event0 "scroll" "s2");
                           OpProcessTrackingEvent (event0 "click" "s1")]
                    (exec boot world0))) = 2.
Proof.
  refine (proj1 (proj2 (health_sessions_without_eviction (λ _, "")
                   [OpTrackEvent (request0 "click" "s1"); OpTrackPageView;
                    OpProcessTrackingEvent (event0 "scroll" "s2");
                    OpProcessTrackingEvent (event0 "click" "s1")] world0 _ _))).
  - repeat constructor.
  - vm_compute. discriminate.
Defined.

(** X6: whatever a new service runs, evictions included, the health
    metrics never report more active users than total sessions, and the
    total of sessions is never more than the number of operations. *)
Theorem active_users_le_total_sessions (duration_String : Duration → string)
    (ops : list Op) (w : World) :
  Z.of_nat (length ops) <= max_int64 →
  let h := eval (GetHealthMetrics duration_String) (run_ops ops (exec boot w)) in
  0 <= ActiveUsers h <= TotalSessions h ∧
  TotalSessions h <= Z.of_nat (length ops).
Proof.
  intros Hlen. cbn zeta. rewrite GetHealthMetrics_eval.
  cbn [ActiveUsers TotalSessions].
  destruct (run_ops_size_le ops (exec boot w) 0) as [Hlo Hup].
  - rewrite boot_exec. cbn. rewrite map_size_empty. lia.
  - lia.
  - lia.
Qed.

Lemma active_users_le_total_sessions_witness :
  let h := eval (GetHealthMetrics (λ _, ""))
             (run_ops [OpProcessTrackingEvent (event0 "click" "s1");
                       OpCleanupOldSessions (-1);
                       OpProcessTrackingEvent (event0 "click" "s1")]
                (exec boot world0)) in
  ActiveUsers h <= TotalSessions h.
Proof.
  cbn zeta.
  refine (proj2 (proj1 (active_users_le_total_sessions (λ _, "")
                   [OpProcessTrackingEvent (event0 "click" "s1");
                    OpCleanupOldSessions (-1);
                    OpProcessTrackingEvent (event0 "click" "s1")] world0 _))).
  vm_compute. discriminate.
Defined.

(** ** Stored sessions are well formed *)

Lemma count_clicks_snoc (es : list TrackingEvent) (e : TrackingEvent) :
  count_clicks (es ++ [e]) = count_clicks es + if is_click e then 1 else 0.
Proof.
  rewrite count_clicks_app, count_clicks_cons, count_clicks_nil. lia.
Qed.

Lemma folded_wf (event : TrackingEvent) (t : Time) (d : SessionData) :
  session_wf (SessionID event) d →
  session_wf (SessionID event) (folded event t d).
Proof.
  intros (Hid & Hne & Hall & Hc). unfold session_wf.
  rewrite folded_ClickCount. unfold folded. cbn [ID Events]. split_and!.
  - exact Hid.
  - by destruct (Events d).
  - apply Forall_app. split; [exact Hall|by constructor].
  - rewrite count_clicks_snoc, Hc. destruct (is_click event).
    + apply incr64_wrap64.
    + by rewrite Z.add_0_r.
Qed.

Lemma created_wf (event : TrackingEvent) (t t1 t2 : Time) :
  session_wf (SessionID event)
    (folded event t (mkSession (SessionID event) t1 t2 0 [])).
Proof.
  unfold session_wf. rewrite folded_ClickCount. unfold folded. cbn [ID Events ClickCount].
  split_and!; [done|done|by repeat constructor|].
  rewrite count_clicks_snoc, count_clicks_nil. by destruct (is_click event).
Qed.

Lemma updateSession_wf (event : TrackingEvent) (w : World) :
  sessions_wf (svc w) → sessions_wf (svc (exec (updateSession event) w)).
Proof.
  intros Hwf sid d'.
  destruct (decide (sid = SessionID event)) as [->|Hne].
  - rewrite updateSession_lookup. intros [= <-].
    destruct (sessions (svc w) !! SessionID event) as [d|] eqn:Hd.
    + apply folded_wf. by apply Hwf.
    + apply created_wf.
  - rewrite updateSession_lookup_other by done. apply Hwf.
Qed.

Lemma ProcessTrackingEvent_wf (event : TrackingEvent) (w : World) :
  sessions_wf (svc w) → sessions_wf (svc (exec (ProcessTrackingEvent event) w)).
Proof.
  intros Hwf. unfold sessions_wf. rewrite ProcessTrackingEvent_sessions.
  by apply updateSession_wf.
Qed.

Lemma step_wf (op : Op) (w : World) :
  sessions_wf (svc w) → sessions_wf (svc (step op w)).
Proof.
  intros Hwf. destruct op as [r|event| |maxAge|fmt|duration]; cbn [step].
  - destruct (accepted r) as [event|] eqn:Hacc.
    + destruct (TrackEvent_accepted r event w Hacc) as (-> & _).
      by apply ProcessTrackingEvent_wf.
    + by destruct (TrackEvent_rejected r w Hacc) as (-> & _).
  - by apply ProcessTrackingEvent_wf.
  - by rewrite TrackPageView_svc.
  - intros sid d Hd. apply (Hwf sid).
    by apply (lookup_weaken _ _ _ _ Hd), CleanupOldSessions_subseteq.
  - by rewrite GetHealthMetrics_svc.
  - by rewrite GetClickRate_exec.
Qed.

Lemma run_ops_wf (ops : list Op) :
  ∀ w, sessions_wf (svc w) → sessions_wf (svc (run_ops ops w)).
Proof.
  induction ops as [|op ops IH]; intros w Hwf; [done|].
  cbn [run_ops foldl]. apply IH. by apply step_wf.
Qed.

(** X7: whatever operations a new service has run, interleaved sessions
    and evictions included, every stored session carries its key as id,
    has at least one event, holds only events of its own session id, and
    has the number of its click events as click count (as an [int64]). *)
Theorem stored_sessions_well_formed (ops : list Op) (w : World)
    (sid : string) (d : SessionData) :
  sessions (svc (run_ops ops (exec boot w))) !! sid = Some d →
  ID d = sid ∧
  Events d ≠ [] ∧
  Forall (λ e, SessionID e = sid) (Events d) ∧
  ClickCount d = wrap64 (count_clicks (Events d)).
Proof.
  intros Hd. apply (run_ops_wf ops (exec boot w)); [|exact Hd].
  intros sid' d'. rewrite boot_exec. cbn. by rewrite lookup_empty.
Qed.

Lemma stored_sessions_well_formed_witness :
  ∃ d, sessions (svc (run_ops [OpProcessTrackingEvent (event0 "click" "s1");
                               OpProcessTrackingEvent (event0 "hover" "s2");
                               OpTrackEvent (request0 "click" "s1")]
                        (exec boot world0))) !! "s1" = Some d ∧
       ClickCount d = 2 ∧ length (Events d) = 2%nat.
Proof.
  eexists. split; [vm_compute; reflexivity|].
  split.
  - refine (eq_trans
             (proj2 (proj2 (proj2 (stored_sessions_well_formed
                [OpProcessTrackingEvent (event0 "click" "s1");
                 OpProcessTrackingEvent (event0 "hover" "s2");
                 OpTrackEvent (request0 "click" "s1")] world0 "s1" _ _)))) _).
    + vm_compute. reflexivity.
    + vm_compute. reflexivity.
  - vm_compute. reflexivity.
Defined.

(** ** Instants of the stored sessions *)

Lemma Sub_nonneg (t u : Time) : u <= t → 0 <= Sub t u.
Proof.
  intros Hle. unfold Sub, maxDuration, minDuration, max_int64, min_int64.
  cbn zeta. repeat case_bool_decide; lia.
Qed.

Lemma Sub_le_max (t u : Time) : Sub t u <= maxDuration.
Proof.
  unfold Sub, maxDuration, minDuration, max_int64, min_int64.
  cbn zeta. repeat case_bool_decide; lia.
Qed.

Lemma times_ok_later (w w' : World) :
  clock_monotone (clock w) →
  sessions (svc w') = sessions (svc w) → clock w' = clock w → (reads w ≤ reads w')%nat →
  times_ok w → times_ok w'.
Proof.
  intros Hmono Hs Hc Hr Hok sid d. rewrite Hs, Hc. intros Hd.
  destruct (Hok sid d Hd) as [H1 H2]. split; [done|].
  specialize (Hmono _ _ Hr). lia.
Qed.

Lemma updateSession_times (event : TrackingEvent) (w : World) :
  clock_monotone (clock w) → times_ok w →
  times_ok (exec (updateSession event) w) ∧
  ∀ sid d d',
    sessions (svc w) !! sid = Some d →
    sessions (svc (exec (updateSession event) w)) !! sid = Some d' →
    StartTime d' = StartTime d ∧ LastActive d <= LastActive d'.
Proof.
  intros Hmono Hok.
  pose proof (Hmono (reads w) (S (reads w)) ltac:(lia)) as H01.
  pose proof (Hmono (reads w) (S (S (reads w))) ltac:(lia)) as H02.
  pose proof (Hmono (reads w) (S (S (S (reads w)))) ltac:(lia)) as H03.
  pose proof (Hmono (S (S (reads w))) (S (S (S (reads w)))) ltac:(lia)) as H23.
  split.
  - intros sid d'. rewrite updateSession_clock, updateSession_reads.
    destruct (decide (sid = SessionID event)) as [->|Hne].
    + rewrite updateSession_lookup. intros [= <-].
      destruct (sessions (svc w) !! SessionID event) as [d|] eqn:Hd.
      * destruct (Hok _ _ Hd). cbn. lia.
      * cbn. lia.
    + rewrite updateSession_lookup_other by done. intros Hd.
      destruct (Hok _ _ Hd).
      destruct (sessions (svc w) !! SessionID event); lia.
  - intros sid d d' Hd.
    destruct (decide (sid = SessionID event)) as [->|Hne].
    + rewrite updateSession_lookup, Hd. intros [= <-]. cbn.
      destruct (Hok _ _ Hd). lia.
    + rewrite updateSession_lookup_other by done. rewrite Hd. intros [= <-]. lia.
Qed.

Lemma ProcessTrackingEvent_times (event : TrackingEvent) (w : World) :
  clock_monotone (clock w) → times_ok w →
  times_ok (exec (ProcessTrackingEvent event) w) ∧
  ∀ sid d d',
    sessions (svc w) !! sid = Some d →
    sessions (svc (exec (ProcessTrackingEvent event) w)) !! sid = Some d' →
    StartTime d' = StartTime d ∧ LastActive d <= LastActive d'.
Proof.
  intros Hmono Hok. destruct (updateSession_times event w Hmono Hok) as [H1 H2].
  split.
  - intros sid d. rewrite ProcessTrackingEvent_sessions, ProcessTrackingEvent_clock,
      ProcessTrackingEvent_reads, <- updateSession_reads, <- (updateSession_clock event w).
    apply H1.
  - intros sid d d'. rewrite ProcessTrackingEvent_sessions. apply H2.
Qed.

Lemma step_clock (op : Op) (w : World) : clock (step op w) = clock w.
Proof.
  destruct op as [r|event| |maxAge|fmt|duration]; cbn [step].
  - destruct (accepted r) as [event|] eqn:Hacc.
    + by destruct (TrackEvent_accepted r event w Hacc) as (_ & -> & _).
    + by destruct (TrackEvent_rejected r w Hacc) as (_ & -> & _).
  - apply ProcessTrackingEvent_clock.
  - unfold TrackPageView. run. reflexivity.
  - by rewrite CleanupOldSessions_exec.
  - unfold GetHealthMetrics, Since. run. reflexivity.
  - by rewrite GetClickRate_exec.
Qed.

(** X8: on a clock that never goes back, an operation keeps every stored
    session with its start no later than its last activity and its last
    activity no later than the clock; a session that is still stored
    after the operation has the same start and a last activity that is
    not earlier than before. *)
Theorem last_active_never_decreases (op : Op) (w : World) :
  clock_monotone (clock w) → times_ok w →
  times_ok (step op w) ∧
  ∀ sid d d',
    sessions (svc w) !! sid = Some d →
    sessions (svc (step op w)) !! sid = Some d' →
    StartTime d' = StartTime d ∧ LastActive d <= LastActive d'.
Proof.
  intros Hmono Hok.
  assert (Hsame : ∀ w', sessions (svc w') = sessions (svc w) →
    clock w' = clock w → (reads w ≤ reads w')%nat →
    times_ok w' ∧
    ∀ sid d d', sessions (svc w) !! sid = Some d → sessions (svc w') !! sid = Some d' →
                StartTime d' = StartTime d ∧ LastActive d <= LastActive d').
  { intros w' Hs Hc Hr. split; [by apply (times_ok_later w)|].
    intros sid d d'. rewrite Hs. intros -> [= <-]. lia. }
  destruct op as [r|event| |maxAge|fmt|duration]; cbn [step].
  - destruct (accepted r) as [event|] eqn:Hacc.
    + destruct (TrackEvent_accepted r event w Hacc) as (Hs & Hc & Hr & _).
      set (w0 := at_reads _ _ w) in *.
      assert (Hok0 : times_ok w0).
      { apply (times_ok_later w); try done.
        unfold w0. cbn. destruct (IsZero _); lia. }
      destruct (ProcessTrackingEvent_times (prepare r (clock w (reads w)) event) w0
                  Hmono Hok0) as [H1 H2].
      split.
      * intros sid d. rewrite Hs, Hc, Hr. intros Hd.
        destruct (H1 sid d Hd) as [Ha Hb]. split; [done|].
        rewrite ProcessTrackingEvent_clock in Hb. cbn in Hb.
        pose proof (Hmono _ (S (reads (exec (ProcessTrackingEvent
                      (prepare r (clock w (reads w)) event)) w0)))
                      (Nat.le_succ_diag_r _)).
        lia.
      * intros sid d d'. rewrite Hs. apply H2.
    + destruct (TrackEvent_rejected r w Hacc) as (Hs & Hc & Hr & _).
      apply Hsame; [by rewrite Hs|done|lia].
  - by apply ProcessTrackingEvent_times.
  - apply Hsame; unfold TrackPageView; run; first [done|lia].
  - split.
    + intros sid d. rewrite CleanupOldSessions_exec. cbn [svc clock reads].
      fold (sessions (svc (exec (CleanupOldSessions maxAge) w))).
      intros Hd.
      assert (Hd0 : sessions (svc w) !! sid = Some d).
      { pose proof (CleanupOldSessions_lookup maxAge w sid) as Hl.
        rewrite CleanupOldSessions_exec in Hl. cbn in Hl. cbn in Hd.
        rewrite Hl in Hd. destruct (sessions (svc w) !! sid); [|done].
        by case_bool_decide. }
      destruct (Hok _ _ Hd0). split; [done|].
      pose proof (Hmono (reads w) (S (reads w)) ltac:(lia)). lia.
    + intros sid d d' Hd. rewrite CleanupOldSessions_lookup, Hd.
      case_bool_decide; [done|]. intros [= <-]. lia.
  - apply Hsame; unfold GetHealthMetrics, Since; run; first [done|lia].
  - apply Hsame; rewrite GetClickRate_exec; first [done|lia].
Qed.

Lemma last_active_never_decreases_witness :
  times_ok (step (OpProcessTrackingEvent (event0 "scroll" "s1"))
              (step (OpProcessTrackingEvent (event0 "click" "s1")) (exec boot world0))).
Proof.
  assert (Hmono : clock_monotone ticking) by (intros i j Hij; unfold ticking; lia).
  assert (H0 : times_ok (exec boot world0)).
  { intros sid d. rewrite boot_exec. cbn. by rewrite lookup_empty. }
  destruct (last_active_never_decreases (OpProcessTrackingEvent (event0 "click" "s1"))
              (exec boot world0) Hmono H0) as [H1 _].
  destruct (last_active_never_decreases (OpProcessTrackingEvent (event0 "scroll" "s1"))
              (step (OpProcessTrackingEvent (event0 "click" "s1")) (exec boot world0)))
    as [H2 _].
  - rewrite step_clock. exact Hmono.
  - exact H1.
  - exact H2.
Defined.

(** ** Evictions at the ends of the range, and sessions that come back *)

(** X9: [CleanupOldSessions] with the largest duration removes nothing,
    whatever the clock says; with a negative maximal age it removes every
    session, provided no session was last active after the reading of the
    clock it takes. *)
Theorem CleanupOldSessions_extreme_ages (maxAge : Duration) (w : World) :
  let w' := exec (CleanupOldSessions maxAge) w in
  (maxDuration <= maxAge → sessions (svc w') = sessions (svc w)) ∧
  (maxAge < 0 →
   (∀ sid d, sessions (svc w) !! sid = Some d → LastActive d <= clock w (reads w)) →
   sessions (svc w') = ∅).
Proof.
  cbn zeta. split.
  - intros Hmax. apply map_eq. intros sid. rewrite CleanupOldSessions_lookup.
    destruct (sessions (svc w) !! sid) as [d|]; [|done].
    rewrite bool_decide_eq_false_2; [done|]. unfold stale.
    pose proof (Sub_le_max (clock w (reads w)) (LastActive d)). lia.
  - intros Hneg Hpast. apply map_eq. intros sid.
    rewrite CleanupOldSessions_lookup, lookup_empty.
    destruct (sessions (svc w) !! sid) as [d|] eqn:Hd; [|done].
    rewrite bool_decide_eq_true_2; [done|]. unfold stale.
    pose proof (Sub_nonneg _ _ (Hpast _ _ Hd)). lia.
Qed.

Lemma CleanupOldSessions_extreme_ages_witness :
  sessions (svc (exec (CleanupOldSessions maxDuration)
                   (submit_all [event0 "click" "s1"] world_hourly))) =
    sessions (svc (submit_all [event0 "click" "s1"] world_hourly)).
Proof.
  apply (proj1 (CleanupOldSessions_extreme_ages maxDuration
                  (submit_all [event0 "click" "s1"] world_hourly))).
  unfold maxDuration. lia.
Defined.

(** X10: a session that was evicted and then receives another event
    starts over: it is created again with only the new event, its click
    count is 1 for a click and 0 otherwise, and the session counter is
    incremented once more. *)
Theorem evicted_session_starts_over (event : TrackingEvent) (maxAge : Duration)
    (w : World) (d : SessionData) :
  sessions (svc w) !! SessionID event = Some d →
  stale (clock w (reads w)) maxAge d →
  let w' := exec (ProcessTrackingEvent event) (exec (CleanupOldSessions maxAge) w) in
  sessions (svc w') !! SessionID event =
    Some (mkSession (SessionID event) (clock w (S (reads w)))
            (clock w (S (S (S (reads w)))))
            (if decide (EventType event = "click") then 1 else 0)
            [event]) ∧
  sessionCounter (svc w') = incr64 (sessionCounter (svc w)).
Proof.
  intros Hd Hst. cbn zeta.
  assert (Hgone : sessions (svc (exec (CleanupOldSessions maxAge) w)) !! SessionID event
                  = None).
  { rewrite CleanupOldSessions_lookup, Hd. by rewrite bool_decide_eq_true_2. }
  rewrite ProcessTrackingEvent_lookup, ProcessTrackingEvent_sessionCounter.
  rewrite updateSession_lookup, Hgone.
  rewrite CleanupOldSessions_exec. cbn [svc clock reads sessionCounter set_sessions].
  split; [|reflexivity].
  unfold folded. cbn. by case_decide.
Qed.

Lemma evicted_session_starts_over_witness :
  let w := submit_all [event0 "click" "s1"; event0 "click" "s1"] world_hourly in
  let w' := exec (ProcessTrackingEvent (event0 "scroll" "s1"))
              (exec (CleanupOldSessions (30 * Minute)) w) in
  sessionCounter (svc w') = 2.
Proof.
  cbn zeta.
  refine (eq_trans (proj2 (evicted_session_starts_over (event0 "scroll" "s1")
            (30 * Minute)
            (submit_all [event0 "click" "s1"; event0 "click" "s1"] world_hourly) _ _ _)) _).
  - vm_compute. reflexivity.
  - vm_compute. reflexivity.
  - vm_compute. reflexivity.
Defined.

(** * Further properties of the handlers *)

(** ** [TrackEvent] *)

(** X11: [TrackEvent] never answers with 500.  A request that is not a
    POST is answered with 405 and a body that does not decode with 400,
    whatever else the request holds; in both cases the service is left as
    it was, the clock is not read and no metric sample is written. *)
Theorem TrackEvent_refusals (r : Request) (w : World) :
  (∀ msg, eval (TrackEvent r) w ≠ HttpError msg StatusInternalServerError) ∧
  (Method r ≠ MethodPost →
   eval (TrackEvent r) w = HttpError "Method not allowed" StatusMethodNotAllowed ∧
   svc (exec (TrackEvent r) w) = svc w ∧
   reads (exec (TrackEvent r) w) = reads w ∧
   metrics (emitted (TrackEvent r) w) = []) ∧
  (∀ err, Method r = MethodPost → Decoded r = inl err →
   eval (TrackEvent r) w = HttpError "Invalid JSON" StatusBadRequest ∧
   svc (exec (TrackEvent r) w) = svc w ∧
   reads (exec (TrackEvent r) w) = reads w ∧
   metrics (emitted (TrackEvent r) w) = []).
Proof.
  split_and!.
  - intros msg. destruct (accepted r) as [event|] eqn:Hacc.
    + destruct (TrackEvent_accepted r event w Hacc) as (_ & _ & _ & now & ->). done.
    + destruct (TrackEvent_rejected r w Hacc) as (_ & _ & _ & _ & m & c & -> & Hc).
      intros [= _ ->]. by destruct Hc.
  - intros Hm.
    assert (Hacc : accepted r = None) by (unfold accepted; by rewrite decide_True).
    destruct (TrackEvent_rejected r w Hacc) as (Hs & _ & Hr & Hme & _).
    split_and!; try done.
    unfold TrackEvent, finish. rewrite decide_True by done. run. reflexivity.
  - intros err Hm Hdec.
    assert (Hacc : accepted r = None).
    { unfold accepted. rewrite decide_False, Hdec; [done|]. by intros ?. }
    destruct (TrackEvent_rejected r w Hacc) as (Hs & _ & Hr & Hme & _).
    split_and!; try done.
    unfold TrackEvent, finish. rewrite decide_False, Hdec by (by intros ?).
    run. reflexivity.
Qed.

Lemma TrackEvent_refusals_witness :
  eval (TrackEvent (mkRequest "GET" (inr (event0 "click" "s1")) "" "" None)) world0 =
    HttpError "Method not allowed" StatusMethodNotAllowed.
Proof.
  refine (proj1 (proj1 (proj2 (TrackEvent_refusals
            (mkRequest "GET" (inr (event0 "click" "s1")) "" "" None) world0)) _)).
  discriminate.
Defined.

Lemma updateSession_last_event (event : TrackingEvent) (w : World) :
  ∃ d, sessions (svc (exec (updateSession event) w)) !! SessionID event = Some d ∧
       last (Events d) = Some event.
Proof.
  rewrite updateSession_lookup. eexists. split; [reflexivity|].
  destruct (sessions (svc w) !! SessionID event); unfold folded; cbn [Events];
    apply last_snoc.
Qed.

(** X12: the event that an accepted request leaves as the last event of
    its session is the submitted one with three fields settled by the
    handler: the user agent is that of the request, whatever the body
    said; an empty page URL is replaced by the referer; a zero timestamp
    is replaced by the reading of the clock.  Type, session id, element,
    coordinates and custom map are stored as submitted. *)
Theorem TrackEvent_stored_event (r : Request) (event : TrackingEvent) (w : World) :
  accepted r = Some event →
  ∃ d stored,
    sessions (svc (exec (TrackEvent r) w)) !! SessionID event = Some d ∧
    last (Events d) = Some stored ∧
    UserAgent stored = RequestUserAgent r ∧
    PageURL stored = (if decide (PageURL event = "") then Referer r else PageURL event) ∧
    Timestamp stored =
      (if IsZero (Timestamp event) then clock w (reads w) else Timestamp event) ∧
    EventType stored = EventType event ∧
    SessionID stored = SessionID event ∧
    ElementID stored = ElementID event ∧
    (CursorX stored, CursorY stored) = (CursorX event, CursorY event) ∧
    Custom stored = Custom event.
Proof.
  intros Hacc. destruct (TrackEvent_accepted r event w Hacc) as (-> & _).
  set (w0 := at_reads _ _ w).
  destruct (updateSession_last_event (prepare r (clock w (reads w)) event) w0)
    as (d & Hd & Hlast).
  exists d, (prepare r (clock w (reads w)) event).
  rewrite ProcessTrackingEvent_sessions. rewrite prepare_SessionID in Hd.
  split; [exact Hd|]. split; [exact Hlast|].
  unfold prepare.
  destruct (IsZero (Timestamp event)); cbn [PageURL set_UserAgent set_Timestamp];
    case_decide; cbn; done.
Qed.

Lemma TrackEvent_stored_event_witness :
  ∃ d stored,
    sessions (svc (exec (TrackEvent (request0 "click" "s1")) world0)) !! "s1" = Some d ∧
    last (Events d) = Some stored ∧
    UserAgent stored = "Mozilla/5.0" ∧ Timestamp stored = 1.
Proof.
  destruct (TrackEvent_stored_event (request0 "click" "s1") (event0 "click" "s1") world0
              eq_refl) as (d & stored & Hd & Hl & Hua & _ & Hts & _).
  exists d, stored. split; [exact Hd|]. split; [exact Hl|].
  split; [exact Hua|exact Hts].
Defined.

(** ** [HomePage] and [HealthCheck] *)

(** X13: [HomePage] counts a page view exactly for a GET request of the
    path "/", also when parsing or executing the template fails and the
    answer is 500; any other request is refused (405 for the method, which
    is checked first, else not found) and leaves the service as it was.
    The sessions and the other counters are never touched. *)
Theorem HomePage_page_views (tmpl : string) (r : PageRequest) (w : World) :
  let w' := exec (HomePage tmpl r) w in
  svc w' =
    (if decide (PageMethod r = MethodGet ∧ PagePath r = "/")
     then set_pageViews (incr64 (pageViews (svc w))) (svc w)
     else svc w) ∧
  eval (HomePage tmpl r) w =
    (if decide (PageMethod r ≠ MethodGet)
     then PageError "Method not allowed" StatusMethodNotAllowed
     else if decide (PagePath r ≠ "/") then PageNotFound
     else match ParseErr r, ExecuteErr r with
          | None, None => PageHTML tmpl
          | _, _ => PageError "Internal server error" StatusInternalServerError
          end).
Proof.
  cbn zeta. unfold HomePage, finish_home.
  destruct (decide (PageMethod r ≠ MethodGet)) as [Hm|Hm].
  { run. rewrite decide_False by (intros [? _]; done). done. }
  destruct (decide (PagePath r ≠ "/")) as [Hp|Hp].
  { run. rewrite decide_False by (intros [_ ?]; done). done. }
  rewrite decide_True by (split; [by destruct (decide (PageMethod r = MethodGet))
                                 |by destruct (decide (PagePath r = "/"))]).
  unfold TrackPageView.
  destruct (ParseErr r), (ExecuteErr r); run; done.
Qed.

(** X14: [HealthCheck] never changes the service.  A GET request whose
    response is written is answered with a document of four fields:
    the status "healthy", the instant of a second reading of the clock,
    the version, and the uptime, which is the rendered difference between
    the first reading of the clock and the start time of the service;
    none of the counters is part of the answer. *)
Theorem HealthCheck_read_only (duration_String : Duration → string) (r : Request)
    (w : World) :
  svc (exec (HealthCheck duration_String r) w) = svc w ∧
  metrics (emitted (HealthCheck duration_String r) w) = [] ∧
  (Method r = MethodGet → EncodeErr r = None →
   eval (HealthCheck duration_String r) w =
     HttpJSON [("status", VString "healthy");
               ("timestamp", VTime (clock w (S (reads w))));
               ("version", VString "v1.0.0");
               ("uptime", VString (duration_String
                                     (Sub (clock w (reads w)) (startTime (svc w)))))]).
Proof.
  unfold HealthCheck, finish_health, GetHealthMetrics, Since, emitted, metrics.
  destruct (decide (Method r ≠ MethodGet)) as [Hm|Hm].
  { run. split_and!; [done| |done].
    rewrite <- !app_assoc, drop_app_length. reflexivity. }
  destruct (EncodeErr r) as [err|]; run.
  - split_and!; [done| |done]. rewrite <- !app_assoc, drop_app_length. reflexivity.
  - split_and!; [done| |done]. rewrite <- !app_assoc, drop_app_length. reflexivity.
Qed.

Lemma HealthCheck_read_only_witness :
  eval (HealthCheck (λ _, "1h0m0s") (mkRequest "GET" (inl "") "" "" None)) world0 =
    HttpJSON [("status", VString "healthy"); ("timestamp", VTime 2);
              ("version", VString "v1.0.0"); ("uptime", VString "1h0m0s")].
Proof.
  exact (proj2 (proj2 (HealthCheck_read_only (λ _, "1h0m0s")
                         (mkRequest "GET" (inl "") "" "" None) world0))
           eq_refl eq_refl).
Defined.

(** * The middleware chain *)

Lemma Chain_loop_take {Handler : Type} (middlewares : list (Middleware Handler)) (n : nat) :
  ∀ h, (n ≤ length middlewares)%nat →
       Chain_loop middlewares n h = foldr (λ m k, m k) h (take n middlewares).
Proof.
  unfold Middleware in *.
  induction n as [|i IH]; intros h Hn.
  - by rewrite take_0.
  - cbn [Chain_loop]. unfold Middleware.
    destruct (middlewares !! i) as [m|] eqn:Hm.
    + rewrite (take_S_r _ _ _ Hm), foldr_app. cbn [foldr].
      apply IH. lia.
    + apply lookup_ge_None in Hm. lia.
Qed.

(** X15: [Chain] wraps the handler so that the first middleware of the
    list is the outermost one: chaining nothing gives the handler back,
    chaining [m :: ms] is [m] applied to the chain of [ms], and chaining
    two lists one after the other is chaining the inner list first. *)
Theorem Chain_order {Handler : Type} (h : Handler)
    (ms ms' : list (Middleware Handler)) (m : Middleware Handler) :
  Chain h [] = h ∧
  Chain h (m :: ms) = m (Chain h ms) ∧
  Chain h (ms ++ ms') = Chain (Chain h ms') ms.
Proof.
  unfold Chain, Middleware in *. rewrite !Chain_loop_take by done.
  rewrite !firstn_all. split_and!; [done|done|].
  by rewrite foldr_app.
Qed.

(** * The configuration *)

Lemma Getenv_delete_empty (env : gmap string string) (key key' : string) :
  env !! key = Some "" → Getenv (delete key env) key' = Getenv env key'.
Proof.
  intros Hk. unfold Getenv. destruct (decide (key = key')) as [<-|Hne].
  - by rewrite lookup_delete_eq, Hk.
  - by rewrite lookup_delete_ne.
Qed.

Lemma getEnvString_nonempty (env : gmap string string) (key defaultValue : string) :
  defaultValue ≠ "" → getEnvString env key defaultValue ≠ "".
Proof. intros Hd. unfold getEnvString. cbn zeta. by case_decide. Qed.

Lemma validLogLevels_lookup (level : string) :
  default false (validLogLevels !! level) = true →
  level ∈ ["DEBUG"; "INFO"; "WARN"; "ERROR"].
Proof.
  unfold validLogLevels.
  rewrite !lookup_insert, lookup_singleton.
  repeat (case_decide; [subst; intros _; repeat constructor|]).
  discriminate.
Qed.

(** X16: a configuration that [Load] returns has a port between 1 and
    65535, one of the four log levels, and a non-empty endpoint and
    environment name.  When [Load] fails, the error is the wrapped port
    error or the wrapped log-level error of the values it read: the
    endpoint check of [validate] cannot fail here, because an empty
    variable has been replaced by the default. *)
Theorem Load_result (env : gmap string string) :
  (∀ cfg, Load env = inr cfg →
     1 <= Port cfg <= 65535 ∧
     LogLevel cfg ∈ ["DEBUG"; "INFO"; "WARN"; "ERROR"] ∧
     OTELEndpoint cfg ≠ "" ∧ Environment cfg ≠ "") ∧
  (∀ err, Load env = inl err →
     err = ErrInvalidConfiguration (ErrPort (getEnvInt env "PORT" 8080)) ∨
     err = ErrInvalidConfiguration (ErrLogLevel (getEnvString env "LOG_LEVEL" "INFO"))).
Proof.
  unfold Load, validate. cbn zeta. cbn [Port LogLevel OTELEndpoint Environment].
  pose proof (getEnvString_nonempty env "OTEL_EXPORTER_OTLP_ENDPOINT" "localhost:4317"
                ltac:(discriminate)) as Hep.
  pose proof (getEnvString_nonempty env "ENVIRONMENT" "development"
                ltac:(discriminate)) as Henv.
  destruct (decide (getEnvInt env "PORT" 8080 < 1 ∨ getEnvInt env "PORT" 8080 > 65535))
    as [Hport|Hport].
  { split; [intros cfg [=]|intros err [= <-]; by left]. }
  destruct (default false (validLogLevels !! getEnvString env "LOG_LEVEL" "INFO"))
    eqn:Hlevel; cbn [negb].
  - rewrite decide_False by done. split; [|intros err [=]].
    intros cfg [= <-]. cbn. split_and!; try done; try lia.
    by apply validLogLevels_lookup.
  - split; [intros cfg [=]|intros err [= <-]; by right].
Qed.

Lemma Load_result_witness :
  1 <= Port (mkConfig 9090 "WARN" "localhost:4317" "development") <= 65535.
Proof.
  refine (proj1 (proj1 (Load_result {["PORT" := "9090"; "LOG_LEVEL" := "WARN"]}) _ _)).
  vm_compute. reflexivity.
Defined.

(** X17: a variable that is set to the empty string is treated like a
    variable that is not set: [Load] gives the same result, error or
    configuration, when the variable is removed from the environment. *)
Theorem Load_empty_is_unset (env : gmap string string) (key : string) :
  env !! key = Some "" → Load (delete key env) = Load env.
Proof.
  intros Hk. unfold Load, getEnvInt, getEnvString. cbn zeta.
  by rewrite !(Getenv_delete_empty env key _ Hk).
Qed.

Lemma Load_empty_is_unset_witness :
  Load (delete "LOG_LEVEL" {["LOG_LEVEL" := ""; "PORT" := "9090"]}) =
    Load {["LOG_LEVEL" := ""; "PORT" := "9090"]}.
Proof.
  apply (Load_empty_is_unset {["LOG_LEVEL" := ""; "PORT" := "9090"]} "LOG_LEVEL").
  vm_compute. reflexivity.
Defined.

(** ** Decimal numerals *)

Lemma digit_value_char (d : Z) : 0 <= d < 10 → digit_value (digit_char d) = Some d.
Proof.
  intros Hd.
  assert (d = 0 ∨ d = 1 ∨ d = 2 ∨ d = 3 ∨ d = 4 ∨ d = 5 ∨ d = 6 ∨ d = 7 ∨ d = 8 ∨ d = 9)
    as Hcases by lia.
  repeat (destruct Hcases as [->|Hcases]; [reflexivity|]). by subst.
Qed.

Lemma parse_format_digits (fuel : nat) :
  ∀ (n : Z) (acc : string),
    0 <= n < 10 ^ Z.of_nat fuel →
    ∃ k, 0 <= k ∧
         ∀ a, parse_digits a (format_digits fuel n acc) =
              parse_digits (a * 10 ^ k + n) acc.
Proof.
  induction fuel as [|fuel IH]; intros n acc Hn.
  - exists 0. split; [lia|]. intros a. cbn [format_digits].
    change (10 ^ Z.of_nat 0) with 1 in Hn. f_equal; lia.
  - cbn [format_digits].
    pose proof (Z.mod_pos_bound n 10 ltac:(lia)) as Hmod.
    pose proof (Z.div_mod n 10 ltac:(lia)) as Hdiv.
    destruct (n <? 10) eqn:Hlt.
    + apply Z.ltb_lt in Hlt. exists 1. split; [lia|]. intros a.
      cbn [parse_digits]. rewrite digit_value_char by lia.
      rewrite Z.mod_small by lia. f_equal; lia.
    + apply Z.ltb_ge in Hlt.
      destruct (IH (n / 10) (String (digit_char (n mod 10)) acc)) as (k & Hk & Hparse).
      { split; [apply Z.div_pos; lia|].
        apply Z.div_lt_upper_bound; [lia|].
        rewrite Nat2Z.inj_succ, Z.pow_succ_r in Hn by lia. lia. }
      exists (k + 1). split; [lia|]. intros a.
      rewrite Hparse. cbn [parse_digits]. rewrite digit_value_char by lia.
      rewrite Z.pow_add_r by lia. f_equal; lia.
Qed.

Lemma format_digits_keeps (fuel : nat) :
  ∀ (n : Z) (acc : string),
    acc ≠ EmptyString → format_digits fuel n acc ≠ EmptyString.
Proof.
  induction fuel as [|fuel IH]; intros n acc Hacc; [done|].
  cbn [format_digits]. destruct (n <? 10); [done|]. by apply IH.
Qed.

Lemma format_digits_nonempty (fuel : nat) (n : Z) :
  format_digits (S fuel) n EmptyString ≠ EmptyString.
Proof.
  cbn [format_digits]. destruct (n <? 10); [done|]. by apply format_digits_keeps.
Qed.

Lemma parse_digits_first (c : ascii) (rest : string) (a v : Z) :
  parse_digits a (String c rest) = Some v → c ≠ "-"%char ∧ c ≠ "+"%char.
Proof.
  cbn [parse_digits]. destruct (digit_value c) eqn:Hc; [|done].
  intros _. split; intros ->; discriminate.
Qed.

Lemma ten_pow_19 : max_int64 + 1 < 10 ^ Z.of_nat 19.
Proof. by vm_compute. Qed.

Lemma Itoa_nonempty (n : Z) : Itoa n ≠ EmptyString.
Proof.
  unfold Itoa. destruct (n <? 0); [done|]. apply format_digits_nonempty.
Qed.

Lemma Atoi_digits (s : string) (n : Z) :
  s ≠ EmptyString → parse_digits 0 s = Some n → in_int64 n → Atoi s = Some n.
Proof.
  intros Hne Hparse Hn. destruct s as [|c rest]; [done|].
  destruct (parse_digits_first _ _ _ _ Hparse) as [Hm Hp].
  unfold Atoi. rewrite (bool_decide_eq_false_2 (_ ∨ _)) by (by intros [?|?]).
  rewrite !(bool_decide_eq_false_2 (_ = _)) by done.
  rewrite Hparse. cbn zeta.
  replace ((min_int64 <=? n) && (n <=? max_int64)) with true; [done|].
  symmetry. apply andb_true_iff. unfold in_int64 in Hn. split; apply Z.leb_le; lia.
Qed.

Lemma Atoi_minus (s : string) (n : Z) :
  s ≠ EmptyString → parse_digits 0 s = Some n → in_int64 (- n) →
  Atoi (String "-"%char s) = Some (- n).
Proof.
  intros Hne Hparse Hn.
  unfold Atoi. rewrite (bool_decide_eq_true_2 (_ ∨ _)) by (by left).
  rewrite !(bool_decide_eq_true_2 (_ = _)) by done.
  destruct s as [|c rest]; [done|].
  rewrite Hparse. cbn zeta.
  replace ((min_int64 <=? - n) && (- n <=? max_int64)) with true; [done|].
  symmetry. apply andb_true_iff. unfold in_int64 in Hn. split; apply Z.leb_le; lia.
Qed.

Lemma Atoi_Itoa (n : Z) : in_int64 n → Atoi (Itoa n) = Some n.
Proof.
  intros Hn. pose proof ten_pow_19 as H19. unfold Itoa.
  destruct (n <? 0) eqn:Hneg.
  - apply Z.ltb_lt in Hneg.
    destruct (parse_format_digits 19 (- n) EmptyString) as (k & Hk & Hparse).
    { unfold in_int64, min_int64, max_int64 in *. lia. }
    specialize (Hparse 0). cbn [parse_digits] in Hparse.
    replace (0 * 10 ^ k + - n) with (- n) in Hparse by lia.
    replace n with (- - n) at 2 by lia.
    apply Atoi_minus; [apply format_digits_nonempty|exact Hparse|].
    by rewrite Z.opp_involutive.
  - apply Z.ltb_ge in Hneg.
    destruct (parse_format_digits 19 n EmptyString) as (k & Hk & Hparse).
    { unfold in_int64, min_int64, max_int64 in *. lia. }
    specialize (Hparse 0). cbn [parse_digits] in Hparse.
    replace (0 * 10 ^ k + n) with n in Hparse by lia.
    apply Atoi_digits; [apply format_digits_nonempty|exact Hparse|exact Hn].
Qed.

Lemma Load_port_of (n : Z) (env : gmap string string) :
  getEnvInt env "PORT" 8080 = n →
  (∀ cfg, Load env = inr cfg → Port cfg = n ∧ 1 <= n <= 65535) ∧
  (n < 1 ∨ n > 65535 → Load env = inl (ErrInvalidConfiguration (ErrPort n))).
Proof.
  intros Hget. unfold Load, validate. cbn zeta.
  cbn [Port LogLevel OTELEndpoint Environment]. rewrite Hget.
  destruct (decide (n < 1 ∨ n > 65535)) as [Hbad|Hok].
  - split; [intros cfg [=]|done].
  - split; [|done]. intros cfg Hcfg.
    destruct (negb _); [done|]. destruct (decide _); [done|].
    injection Hcfg as <-. cbn. lia.
Qed.

(** X18: a variable that holds the decimal numeral of an [int] is read by
    [getEnvInt] as that number.  For PORT this decides [Load]: a numeral
    between 1 and 65535 becomes the port of the configuration, any other
    numeral makes [Load] fail with the port error that names it. *)
Theorem PORT_numeral (env : gmap string string) (n : Z) :
  in_int64 n →
  let env' := <["PORT" := Itoa n]> env in
  getEnvInt env' "PORT" 8080 = n ∧
  (∀ cfg, Load env' = inr cfg → Port cfg = n ∧ 1 <= n <= 65535) ∧
  (n < 1 ∨ n > 65535 → Load env' = inl (ErrInvalidConfiguration (ErrPort n))).
Proof.
  intros Hn. cbn zeta.
  assert (Hget : getEnvInt (<["PORT" := Itoa n]> env) "PORT" 8080 = n).
  { unfold getEnvInt, Getenv. rewrite lookup_insert_eq. cbn [from_option id].
    rewrite decide_True by apply Itoa_nonempty. by rewrite Atoi_Itoa. }
  split; [exact Hget|]. split.
  - intros cfg Hload.
    destruct (proj1 (Load_port_of n (<["PORT" := Itoa n]> env) Hget) cfg Hload).
    done.
  - intros Hbad. apply (proj2 (Load_port_of n (<["PORT" := Itoa n]> env) Hget) Hbad).
Qed.

Lemma PORT_numeral_witness :
  getEnvInt (<["PORT" := "9090"]> ∅) "PORT" 8080 = 9090 ∧
  Load (<["PORT" := "70000"]> ∅) = inl (ErrInvalidConfiguration (ErrPort 70000)).
Proof.
  split.
  - refine (proj1 (PORT_numeral ∅ 9090 _)). vm_compute. split; discriminate.
  - refine (proj2 (proj2 (PORT_numeral ∅ 70000 _)) _).
    + vm_compute. split; discriminate.
    + right. lia.
Defined.

(** A variable that is not a numeral is ignored, a sign is accepted. *)
Example getEnvInt_samples :
  getEnvInt {["PORT" := "80a"]} "PORT" 8080 = 8080 ∧
  getEnvInt {["PORT" := " 80"]} "PORT" 8080 = 8080 ∧
  getEnvInt {["PORT" := "+80"]} "PORT" 8080 = 80 ∧
  getEnvInt {["PORT" := "9223372036854775808"]} "PORT" 8080 = 8080.
Proof. vm_compute. done. Qed.

(** * Further properties of the click rate *)

(** X19: for a window of a whole number [k] of minutes the click rate is
    the click counter divided by [k], both converted to [float64]: the
    window is converted to minutes without rounding. *)
Theorem GetClickRate_whole_minutes (k : Z) (w : World) :
  0 < k → k * Minute <= max_int64 →
  eval (GetClickRate (k * Minute)) w =
    f64_div (float64_of_Z (clickCounter (svc w))) (float64_of_Z k).
Proof.
  intros Hk Hmax. unfold GetClickRate. run.
  assert (Hd : 0 < k * Minute <= max_int64)
    by (change Minute with 60000000000 in *; lia).
  rewrite (above_zero_eqb _ (Minutes_above_zero _ Hd)).
  by rewrite Minutes_whole.
Qed.

Lemma GetClickRate_whole_minutes_witness :
  eval (GetClickRate (3 * Minute)) (mkWorld (mkService 0 6 0 0 ∅) ticking 1 []) =
    float64_of_Z 2.
Proof.
  refine (eq_trans (GetClickRate_whole_minutes 3
                      (mkWorld (mkService 0 6 0 0 ∅) ticking 1 []) _ _) _).
  - lia.
  - vm_compute. discriminate.
  - vm_compute. reflexivity.
Defined.

(** ** Negative windows *)

Lemma binary_round_aux_opp (m e : Z) (l : location) :
  binary_round_aux f64_prec f64_emax true m e l =
    SFopp (binary_round_aux f64_prec f64_emax false m e l).
Proof.
  unfold binary_round_aux.
  destruct (shr_fexp f64_prec f64_emax m e l) as [mrs' e'].
  destruct (shr_fexp f64_prec f64_emax _ e' loc_Exact) as [mrs'' e''].
  destruct (shr_m mrs''); [reflexivity| |reflexivity].
  destruct (e'' <=? f64_emax - f64_prec); reflexivity.
Qed.

Lemma binary_round_opp (p : positive) (e : Z) :
  binary_round f64_prec f64_emax true p e =
    SFopp (binary_round f64_prec f64_emax false p e).
Proof.
  unfold binary_round. destruct (shl_align _ _ _) as [mz ez].
  apply binary_round_aux_opp.
Qed.

Lemma float64_of_Z_opp (n : Z) :
  0 < n → float64_of_Z (- n) = SFopp (float64_of_Z n).
Proof.
  intros Hn. destruct n as [|p|p]; try lia. apply binary_round_opp.
Qed.

Lemma f64_div_opp (x y : float64) :
  normal53 x → normal53 y → f64_div (SFopp x) y = SFopp (f64_div x y).
Proof.
  intros (mx & ex & -> & _) (my & ey & -> & _).
  unfold f64_div, SFdiv. cbn [SFopp negb xorb].
  destruct (SFdiv_core_binary _ _ _ _ _ _) as [[mz ez] lz].
  apply binary_round_aux_opp.
Qed.

Lemma f64_add_opp (x y : float64) :
  normal53 x → above_zero y → f64_add (SFopp x) (SFopp y) = SFopp (f64_add x y).
Proof.
  intros (mx & ex & -> & _) Hy.
  destruct y as [sy|sy| |sy my ey]; try done.
  destruct Hy as [-> _]. unfold f64_add, SFadd. cbn [SFopp negb cond_Zopp].
  unfold binary_normalize. cbn [Z.opp Z.add]. apply binary_round_opp.
Qed.

Lemma above_zero_opp_eqb (f : float64) : above_zero f → f64_eqb (SFopp f) f64_zero = false.
Proof. destruct f as [s|s| |s m e]; try destruct s; cbn; first [done|by intros []]. Qed.

Lemma f64_add_zero_opp_l (y : float64) :
  above_zero y → f64_add (S754_zero false) (SFopp y) = SFopp y.
Proof. destruct y as [s|s| |s m e]; cbn; done. Qed.

Lemma f64_add_opp_zero_r (x : float64) :
  above_zero x → f64_add (SFopp x) (S754_zero false) = SFopp x.
Proof. destruct x as [s|s| |s m e]; cbn; done. Qed.

(** The minutes of the opposite duration are the opposite minutes. *)
Lemma Minutes_opp (d : Duration) :
  0 < d <= max_int64 → Minutes (- d) = SFopp (Minutes d).
Proof.
  intros [Hpos Hmax]. unfold Minutes, go_div, go_rem.
  change Minute with 60000000000. unfold max_int64 in Hmax.
  rewrite Z.quot_opp_l, Z.rem_opp_l by lia.
  rewrite Z.quot_div_nonneg, Z.rem_mod_nonneg by lia.
  pose proof (Z.div_mod d 60000000000 ltac:(lia)) as Hdm.
  pose proof (Z.mod_pos_bound d 60000000000 ltac:(lia)) as Hr.
  assert (Hq : 0 <= d / 60000000000) by (apply Z.div_pos; lia).
  rewrite !wrap64_small by (unfold in_int64, min_int64, max_int64; lia).
  assert (H53 : 60000000000 < 2 ^ 53) by (by vm_compute).
  assert (Hc : normal53 (float64_of_Z 60000000000)).
  { apply float64_of_Z_normal53. lia. }
  destruct (decide (d `mod` 60000000000 = 0)) as [Hr0|Hr0].
  - rewrite Hr0. destruct Hc as (mc & ec & -> & _).
    change (- 0) with 0.
    change (f64_div (float64_of_Z 0) (S754_finite false mc ec)) with (S754_zero false).
    assert (Hx : above_zero (float64_of_Z (d / 60000000000)))
      by (apply float64_of_Z_above_zero; lia).
    rewrite float64_of_Z_opp by lia.
    by rewrite f64_add_opp_zero_r, f64_add_zero_r.
  - assert (Hn : normal53 (float64_of_Z (d `mod` 60000000000)))
      by (apply float64_of_Z_normal53; lia).
    assert (Hy : above_zero (f64_div (float64_of_Z (d `mod` 60000000000))
                                     (float64_of_Z 60000000000)))
      by (by apply f64_div_above_zero).
    rewrite (float64_of_Z_opp (d `mod` 60000000000)) by lia.
    rewrite f64_div_opp by done.
    destruct (decide (d / 60000000000 = 0)) as [Hq0|Hq0].
    + rewrite Hq0. change (- 0) with 0. change (float64_of_Z 0) with (S754_zero false).
      by rewrite f64_add_zero_opp_l, f64_add_zero_l.
    + rewrite float64_of_Z_opp by lia.
      apply f64_add_opp; [|done].
      apply float64_of_Z_normal53. split; [lia|].
      assert (d / 60000000000 <= d) by (apply Z.div_le_upper_bound; lia).
      assert (d / 60000000000 < 2 ^ 53); [|lia].
      apply Z.div_lt_upper_bound; [lia|].
      assert (Hb : 9223372036854775807 < 60000000000 * 2 ^ 53) by (by vm_compute).
      lia.
Qed.

(** X20: over the whole range of [Duration] the guard of [GetClickRate]
    fires for the zero window only.  A negative window is not refused: the
    result is the click counter divided by the negative number of
    minutes, and the minutes of [- d] are the opposite of those of [d]. *)
Theorem GetClickRate_negative_window (duration : Duration) (w : World) :
  in_int64 duration → duration ≠ 0 →
  f64_eqb (Minutes duration) f64_zero = false ∧
  eval (GetClickRate duration) w =
    f64_div (float64_of_Z (clickCounter (svc w))) (Minutes duration) ∧
  (0 < duration → Minutes (- duration) = SFopp (Minutes duration)).
Proof.
  intros Hr Hnz.
  assert (Hguard : f64_eqb (Minutes duration) f64_zero = false).
  { unfold in_int64 in Hr.
    destruct (decide (0 < duration)) as [Hpos|Hneg].
    - apply above_zero_eqb, Minutes_above_zero. lia.
    - destruct (decide (duration = min_int64)) as [->|Hmin]; [by vm_compute|].
      assert (Hd : 0 < - duration <= max_int64) by (unfold min_int64, max_int64 in *; lia).
      replace duration with (- - duration) by lia.
      rewrite (Minutes_opp _ Hd).
      apply above_zero_opp_eqb, Minutes_above_zero. exact Hd. }
  split_and!; [exact Hguard| |].
  - unfold GetClickRate. run. by rewrite Hguard.
  - intros Hpos. apply Minutes_opp. unfold in_int64 in Hr. lia.
Qed.

Lemma GetClickRate_negative_window_witness :
  eval (GetClickRate (- (2 * Minute))) (mkWorld (mkService 0 6 0 0 ∅) ticking 1 []) =
    float64_of_Z (-3).
Proof.
  refine (eq_trans (proj1 (proj2 (GetClickRate_negative_window (- (2 * Minute))
                      (mkWorld (mkService 0 6 0 0 ∅) ticking 1 []) _ _))) _).
  - vm_compute. split; discriminate.
  - discriminate.
  - vm_compute. reflexivity.
Defined.

(** * The start time and the uptime *)

Lemma updateSession_startTime (event : TrackingEvent) (w : World) :
  startTime (svc (exec (updateSession event) w)) = startTime (svc w).
Proof.
  destruct (sessions (svc w) !! SessionID event) as [d|] eqn:Hd.
  - by rewrite (updateSession_existing _ _ _ Hd).
  - by rewrite (updateSession_fresh _ _ Hd).
Qed.

Lemma ProcessTrackingEvent_startTime (event : TrackingEvent) (w : World) :
  startTime (svc (exec (ProcessTrackingEvent event) w)) = startTime (svc w).
Proof.
  rewrite ProcessTrackingEvent_svc. cbn zeta.
  case_decide; cbn; apply updateSession_startTime.
Qed.

Lemma step_startTime (op : Op) (w : World) :
  startTime (svc (step op w)) = startTime (svc w).
Proof.
  destruct op as [r|event| |maxAge|fmt|duration]; cbn [step].
  - destruct (accepted r) as [event|] eqn:Hacc.
    + destruct (TrackEvent_accepted r event w Hacc) as (-> & _).
      by rewrite ProcessTrackingEvent_startTime.
    + by destruct (TrackEvent_rejected r w Hacc) as (-> & _).
  - apply ProcessTrackingEvent_startTime.
  - by rewrite TrackPageView_svc.
  - by rewrite CleanupOldSessions_exec.
  - by rewrite GetHealthMetrics_svc.
  - by rewrite GetClickRate_exec.
Qed.

Lemma step_reads (op : Op) (w : World) : (reads w ≤ reads (step op w))%nat.
Proof.
  destruct op as [r|event| |maxAge|fmt|duration]; cbn [step].
  - destruct (accepted r) as [event|] eqn:Hacc.
    + destruct (TrackEvent_accepted r event w Hacc) as (_ & _ & -> & _).
      rewrite ProcessTrackingEvent_reads. cbn.
      destruct (sessions (svc w) !! _), (IsZero _); lia.
    + destruct (TrackEvent_rejected r w Hacc) as (_ & _ & -> & _). lia.
  - rewrite ProcessTrackingEvent_reads.
    destruct (sessions (svc w) !! _); lia.
  - unfold TrackPageView. run. lia.
  - rewrite CleanupOldSessions_exec. cbn. lia.
  - unfold GetHealthMetrics, Since. run. lia.
  - rewrite GetClickRate_exec. lia.
Qed.

Lemma run_ops_start (ops : list Op) :
  ∀ w, startTime (svc (run_ops ops w)) = startTime (svc w) ∧
       clock (run_ops ops w) = clock w ∧
       (reads w ≤ reads (run_ops ops w))%nat.
Proof.
  induction ops as [|op ops IH]; intros w; [done|].
  cbn [run_ops foldl]. destruct (IH (step op w)) as (Hs & Hc & Hr).
  fold (run_ops ops (step op w)).
  rewrite Hs, Hc, step_startTime, step_clock.
  pose proof (step_reads op w). split_and!; [done|done|lia].
Qed.

(** X21: the start time that [New] takes from the clock is never written
    again: after any operations it is still that reading, and on a clock
    that never goes back the uptime that [GetHealthMetrics] renders, the
    difference between a new reading and the start time, is not negative. *)
Theorem uptime_never_negative (ops : list Op) (w : World) :
  clock_monotone (clock w) →
  let w' := run_ops ops (exec boot w) in
  startTime (svc w') = clock w (reads w) ∧
  0 <= eval (Since (startTime (svc w'))) w'.
Proof.
  intros Hmono. cbn zeta.
  destruct (run_ops_start ops (exec boot w)) as (Hs & Hc & Hr).
  assert (Hr' : (reads w ≤ reads (run_ops ops (exec boot w)))%nat).
  { assert (Hb : reads (exec boot w) = S (reads w)) by (by rewrite boot_exec).
    lia. }
  split; [by rewrite Hs, boot_exec|].
  unfold Since. run. rewrite Hs, Hc, boot_exec. cbn [svc clock startTime].
  by apply Sub_nonneg, Hmono.
Qed.

Lemma uptime_never_negative_witness :
  0 <= eval (Since (startTime (svc (run_ops [OpTrackPageView; OpGetHealthMetrics (λ _, "")]
                                     (exec boot world_hourly)))))
         (run_ops [OpTrackPageView; OpGetHealthMetrics (λ _, "")] (exec boot world_hourly)).
Proof.
  refine (proj2 (uptime_never_negative [OpTrackPageView; OpGetHealthMetrics (λ _, "")]
                   world_hourly _)).
  intros i j Hij. unfold world_hourly, hourly. cbn. change (3600 * Second) with 3600000000000.
  lia.
Defined.
